(** * snap-ratio: the coordinate-transform and remote-compression pipeline

    A shallow embedding of the background service worker of the
    thumbnail-capture extension (processImage, getAuthToken, compressImage,
    handleScreenshotCapture), of the configuration objects it reads
    (iLoveIMGConfig, imageConfig) and of the two callers that feed it
    (the popup and the content script), followed by the properties of the
    specification that concern them. *)

From Stdlib Require Import QArith Qround Qabs ZArith Lia Lqa String Ascii List.
From Stdlib Require Import Qminmax.
From Stdlib Require Import Strings.Byte DecimalString.
From Stdlib Require Import SpecFloat.
From stdpp Require Import gmap strings.

Local Open Scope Z_scope.
Local Open Scope string_scope.

(** ** JavaScript numbers

    A JS number is a binary64 float.  Two models of it are used.

    [Num] keeps the exceptional values (the two infinities and NaN) and
    replaces the finite floats by exact numbers: rationals before
    [Math.round], integers after it.  Rounding error, overflow and the
    sign of zero are not modelled (a zero divisor is read as +0).  It
    serves for the bounds that the clamps of the code enforce whatever
    the rounding, and for the geometry of the overlay.

    [Binary64] is IEEE 754 arithmetic itself, on the Standard Library's
    specification of floating-point operations with a mantissa of 53 bits:
    every operation rounds to the nearest float, a tie to the even
    mantissa, and overflows to an infinity.  It serves where the digits of
    a result matter: the crop rectangle handed to the canvas and the size
    reduction reported to the user. *)

Module Num.

Inductive ext (A : Type) : Type :=
  | Fin (a : A)
  | PInf
  | NInf
  | NaN.
Arguments Fin {A} a.
Arguments PInf {A}.
Arguments NInf {A}.
Arguments NaN {A}.

(** The sign of a value that is not NaN, as a comparison with zero. *)
Definition sgnQ (a : ext Q) : comparison :=
  match a with
  | Fin q => (q ?= 0)%Q
  | PInf => Gt
  | NInf => Lt
  | NaN => Eq
  end.

Definition sgn_mul (c d : comparison) : comparison :=
  match c, d with
  | Eq, _ | _, Eq => Eq
  | Gt, Gt | Lt, Lt => Gt
  | _, _ => Lt
  end.

(** Infinity of the given sign; an undetermined sign (0 * Infinity, 0 / 0)
    is NaN. *)
Definition inf_of (c : comparison) : ext Q :=
  match c with
  | Eq => NaN
  | Gt => PInf
  | Lt => NInf
  end.

(** [a / b] *)
Definition div (a b : ext Q) : ext Q :=
  match a, b with
  | NaN, _ | _, NaN => NaN
  | Fin x, Fin y => if Qeq_bool y 0 then inf_of (sgnQ a) else Fin (x / y)%Q
  | Fin _, _ => Fin 0%Q
  | _, Fin y => inf_of (sgn_mul (sgnQ a) (if Qeq_bool y 0 then Gt else sgnQ b))
  | _, _ => NaN
  end.

(** [a * b] *)
Definition mul (a b : ext Q) : ext Q :=
  match a, b with
  | NaN, _ | _, NaN => NaN
  | Fin x, Fin y => Fin (x * y)%Q
  | _, _ => inf_of (sgn_mul (sgnQ a) (sgnQ b))
  end.

(** [Math.round]: the nearest integer, a tie going towards +Infinity. *)
Definition Math_round (a : ext Q) : ext Z :=
  match a with
  | Fin q => Fin (Qfloor (q + (1 # 2))%Q)
  | PInf => PInf
  | NInf => NInf
  | NaN => NaN
  end.

(** [Math.min] and [Math.max] of two arguments: NaN is contagious. *)
Definition Math_min (a b : ext Z) : ext Z :=
  match a, b with
  | NaN, _ | _, NaN => NaN
  | NInf, _ | _, NInf => NInf
  | PInf, c | c, PInf => c
  | Fin x, Fin y => Fin (Z.min x y)
  end.

Definition Math_max (a b : ext Z) : ext Z :=
  match a, b with
  | NaN, _ | _, NaN => NaN
  | PInf, _ | _, PInf => PInf
  | NInf, c | c, NInf => c
  | Fin x, Fin y => Fin (Z.max x y)
  end.

(** [a - b] on integer-valued numbers. *)
Definition sub (a b : ext Z) : ext Z :=
  match a, b with
  | NaN, _ | _, NaN => NaN
  | Fin x, Fin y => Fin (x - y)
  | PInf, PInf | NInf, NInf => NaN
  | PInf, _ | _, NInf => PInf
  | NInf, _ | _, PInf => NInf
  end.

Definition ofZ (z : Z) : ext Q := Fin (inject_Z z).

End Num.

Import Num.

Module Binary64.

Definition float : Type := spec_float.

Definition prec : Z := 53.
Definition emax : Z := 1024.

(** [a / b], [a * b] and [a - b] *)
Definition div : float -> float -> float := SFdiv prec emax.
Definition mul : float -> float -> float := SFmul prec emax.
Definition sub : float -> float -> float := SFsub prec emax.

(** The float of an integer: of a literal, of the width of a bitmap, of
    the size of a Blob.  Below 2^53 in absolute value it is the integer
    itself. *)
Definition of_Z (z : Z) : float := binary_normalize prec emax z 0 false.

(** The number that a finite float with sign [s], mantissa [m] and
    exponent [e] stands for: [m * 2^e], negated when [s] is set. *)
Definition value_of (s : bool) (m : positive) (e : Z) : Q :=
  if (0 <=? e)%Z then inject_Z (cond_Zopp s (Zpos m) * 2 ^ e)
  else (inject_Z (cond_Zopp s (Zpos m)) / inject_Z (2 ^ (- e)))%Q.

(** The integer nearest to [z * 2^e], the larger one on a tie. *)
Definition round_half_up (z e : Z) : Z :=
  if (0 <=? e)%Z then z * 2 ^ e
  else (2 * z + 2 ^ (- e)) / 2 ^ (- e + 1).

(** [Math.round]: the nearest integer, a tie going towards +Infinity.  An
    integral number, a zero, an infinity and NaN are returned as they
    are; a negative number that rounds to zero gives -0. *)
Definition Math_round (x : float) : float :=
  match x with
  | S754_finite s m e =>
      if (0 <=? e)%Z then x
      else
        match round_half_up (cond_Zopp s (Zpos m)) e with
        | Z0 => S754_zero s
        | n => of_Z n
        end
  | _ => x
  end.

Definition is_zero (s : bool) (x : float) : bool :=
  match x with
  | S754_zero s' => Bool.eqb s s'
  | _ => false
  end.

(** [Math.min] and [Math.max] of two arguments: NaN is contagious, and
    -0 is smaller than +0. *)
Definition Math_min (a b : float) : float :=
  match SFcompare a b with
  | None => S754_nan
  | Some Lt => a
  | Some Gt => b
  | Some Eq => if is_zero true a then a else b
  end.

Definition Math_max (a b : float) : float :=
  match SFcompare a b with
  | None => S754_nan
  | Some Lt => b
  | Some Gt => a
  | Some Eq => if is_zero false a then a else b
  end.

(** [x.toFixed(1)] proceeds on the absolute value [m * 2^e]: the integer
    [n] with [n / 10] closest to it, the larger one on a tie. *)
Definition tenths (m : positive) (e : Z) : Z := round_half_up (10 * Zpos m) e.

(** The crop rectangle of processImage (lines 75 to 89), float by float. *)

Record Bounds : Type := mkBounds
  { b_x : float; b_y : float; b_width : float; b_height : float }.

Record Region : Type := mkRegion
  { finalX : float; finalY : float; finalWidth : float; finalHeight : float }.

Definition viewport_of (screenshotWidth screenshotHeight : Z)
    (tabViewport : option (float * float)) : float * float :=
  match tabViewport with
  | Some (width, height) => (width, height)
  | None => (of_Z screenshotWidth, of_Z screenshotHeight)
  end.

Definition crop_region (cropBounds : Bounds)
    (screenshotWidth screenshotHeight : Z)
    (viewportWidth viewportHeight : float) : Region :=
  (* Calculate scale factors *)
  let scaleX := div (of_Z screenshotWidth) viewportWidth in
  let scaleY := div (of_Z screenshotHeight) viewportHeight in
  (* Scale the crop bounds to match screenshot coordinates *)
  let scaledX := Math_round (mul (b_x cropBounds) scaleX) in
  let scaledY := Math_round (mul (b_y cropBounds) scaleY) in
  let scaledWidth := Math_round (mul (b_width cropBounds) scaleX) in
  let scaledHeight := Math_round (mul (b_height cropBounds) scaleY) in
  (* Ensure bounds are within image *)
  let finalX :=
    Math_max (of_Z 0)
      (Math_min scaledX (sub (of_Z screenshotWidth) (of_Z 1))) in
  let finalY :=
    Math_max (of_Z 0)
      (Math_min scaledY (sub (of_Z screenshotHeight) (of_Z 1))) in
  let finalWidth := Math_min scaledWidth (sub (of_Z screenshotWidth) finalX) in
  let finalHeight :=
    Math_min scaledHeight (sub (of_Z screenshotHeight) finalY) in
  mkRegion finalX finalY finalWidth finalHeight.

Definition processImage_region (cropBounds : Bounds)
    (screenshotWidth screenshotHeight : Z)
    (tabViewport : option (float * float)) : Region :=
  let '(viewportWidth, viewportHeight) :=
    viewport_of screenshotWidth screenshotHeight tabViewport in
  crop_region cropBounds screenshotWidth screenshotHeight
    viewportWidth viewportHeight.

(** A selection and a rectangle with integer coordinates. *)
Definition integer_bounds (x y width height : Z) : Bounds :=
  mkBounds (of_Z x) (of_Z y) (of_Z width) (of_Z height).

Definition integer_region (x y width height : Z) : Region :=
  mkRegion (of_Z x) (of_Z y) (of_Z width) (of_Z height).

End Binary64.

(** ** processImage: the crop rectangle

    [cropBounds] is the selection in viewport coordinates; the screenshot
    has [screenshotWidth] x [screenshotHeight] pixels.  This is the
    rectangle in exact arithmetic; [Binary64.crop_region] is the same
    code in floats. *)

Record Bounds : Type := mkBounds
  { b_x : Q; b_y : Q; b_width : Q; b_height : Q }.

Record Region : Type := mkRegion
  { finalX : ext Z; finalY : ext Z; finalWidth : ext Z; finalHeight : ext Z }.

(** The viewport used for scaling.  It starts as the screenshot size and
    is replaced by [window.innerWidth] x [window.innerHeight] when the
    script injected in the tab answers ([tabViewport] is [None] when there
    is no tab, the injection throws or it returns no result). *)
Definition viewport_of (screenshotWidth screenshotHeight : Z)
    (tabViewport : option (Q * Q)) : ext Q * ext Q :=
  match tabViewport with
  | Some (width, height) => (Fin width, Fin height)
  | None => (ofZ screenshotWidth, ofZ screenshotHeight)
  end.

Definition crop_region (cropBounds : Bounds)
    (screenshotWidth screenshotHeight : Z)
    (viewportWidth viewportHeight : ext Q) : Region :=
  (* Calculate scale factors *)
  let scaleX := div (ofZ screenshotWidth) viewportWidth in
  let scaleY := div (ofZ screenshotHeight) viewportHeight in
  (* Scale the crop bounds to match screenshot coordinates *)
  let scaledX := Math_round (mul (Fin (b_x cropBounds)) scaleX) in
  let scaledY := Math_round (mul (Fin (b_y cropBounds)) scaleY) in
  let scaledWidth := Math_round (mul (Fin (b_width cropBounds)) scaleX) in
  let scaledHeight := Math_round (mul (Fin (b_height cropBounds)) scaleY) in
  (* Ensure bounds are within image *)
  let finalX :=
    Math_max (Fin 0) (Math_min scaledX (sub (Fin screenshotWidth) (Fin 1))) in
  let finalY :=
    Math_max (Fin 0) (Math_min scaledY (sub (Fin screenshotHeight) (Fin 1))) in
  let finalWidth := Math_min scaledWidth (sub (Fin screenshotWidth) finalX) in
  let finalHeight := Math_min scaledHeight (sub (Fin screenshotHeight) finalY) in
  mkRegion finalX finalY finalWidth finalHeight.

Definition processImage_region (cropBounds : Bounds)
    (screenshotWidth screenshotHeight : Z)
    (tabViewport : option (Q * Q)) : Region :=
  let '(viewportWidth, viewportHeight) :=
    viewport_of screenshotWidth screenshotHeight tabViewport in
  crop_region cropBounds screenshotWidth screenshotHeight
    viewportWidth viewportHeight.

(** ** JavaScript values, exceptions and strings *)

#[warnings="-register-all"]
Inductive jsval : Type :=
  | JUndefined
  | JNull
  | JBool (b : bool)
  | JNum (q : Q)
  | JStr (s : string)
  | JArr (l : list jsval)
  | JObj (o : gmap string jsval).

(** ToBoolean. *)
Definition truthy (v : jsval) : bool :=
  match v with
  | JUndefined | JNull => false
  | JBool b => b
  | JNum q => negb (Qeq_bool q 0)
  | JStr s => negb (String.eqb s "")
  | JArr _ | JObj _ => true
  end.

Definition nullish (v : jsval) : bool :=
  match v with
  | JUndefined | JNull => true
  | _ => false
  end.

(** [a || b] *)
Definition js_or (a b : jsval) : jsval := if truthy a then a else b.

(** [v.k] on a value that is neither null nor undefined.  Only the keys of
    the remote protocol are read, none of which is a built-in property of
    a string, number, boolean or array. *)
Definition prop (v : jsval) (k : string) : jsval :=
  match v with
  | JObj o => default JUndefined (o !! k)
  | _ => JUndefined
  end.

(** [v?.k] *)
Definition opt_prop (v : jsval) (k : string) : jsval :=
  if nullish v then JUndefined else prop v k.

(** What a [throw] or a rejected promise carries: an [Error] object with
    its message, or any other value. *)
Inductive thrown : Type :=
  | JsError (message : string)
  | JsOther.

Inductive Result (A : Type) : Type :=
  | Ok (a : A)
  | Throw (e : thrown).
Arguments Ok {A} a.
Arguments Throw {A} e.

(** Decimal rendering of an integer, as a template string does for an
    integral number below 10^21. *)
Definition string_of_Z (z : Z) : string :=
  NilZero.string_of_int (Z.to_int z).

(** [hay.includes(needle)] *)
Fixpoint includes (needle hay : string) : bool :=
  String.prefix needle hay ||
  match hay with
  | EmptyString => false
  | String _ rest => includes needle rest
  end.

(** A JS string is a sequence of UTF-16 code units.  A character of the
    model is a code unit below 256, so that the model covers the strings
    made of these (the Latin-1 range, as [String.fromCharCode] produces
    from bytes).

    White space and line terminators removed by [String.prototype.trim],
    among the code units below 256: tab, line feed, vertical tab, form
    feed, carriage return, space and no-break space (U+00A0). *)
Definition is_space (c : ascii) : bool :=
  let n := nat_of_ascii c in
  ((9 <=? n) && (n <=? 13) || (n =? 32) || (n =? 160))%nat.

Fixpoint trim_start (s : string) : string :=
  match s with
  | String c rest => if is_space c then trim_start rest else s
  | EmptyString => EmptyString
  end.

Fixpoint trim_end (s : string) : string :=
  match s with
  | String c rest =>
      match trim_end rest with
      | EmptyString => if is_space c then EmptyString else String c EmptyString
      | rest' => String c rest'
      end
  | EmptyString => EmptyString
  end.

Definition trim (s : string) : string := trim_end (trim_start s).

Definition Blob : Type := list byte.

Definition blob_size (b : Blob) : Z := Z.of_nat (length b).

(** The digits of [n] tenths: the last digit after the point. *)
Definition fixed1_digits (n : Z) : string :=
  string_of_Z (n / 10) ++ "." ++ string_of_Z (n mod 10).

(** [x.toFixed(1)] for a number below 10^21 in absolute value (the
    percentage computed from two Blob sizes always is): the sign of a
    negative number, then the digits of the tenths nearest to its absolute
    value.  A zero of either sign gives "0.0". *)
Definition toFixed1 (x : Binary64.float) : string :=
  match x with
  | S754_nan => "NaN"
  | S754_infinity false => "Infinity"
  | S754_infinity true => "-Infinity"
  | S754_zero _ => "0.0"
  | S754_finite s m e =>
      (if s then "-" else "") ++ fixed1_digits (Binary64.tenths m e)
  end.

(** ** Configuration objects *)

Record ApiConfig : Type := mkApiConfig
  { publicKey : string;
    secretKey : string;
    baseUrl : string;
    tool : string;
    authUrl : string }.

(** [process.env.X || ""] *)
Definition env_or_empty (v : option string) : string := default "" v.

Definition iLoveIMGConfig (env_public_key env_secret_key : option string)
    : ApiConfig :=
  {| publicKey := env_or_empty env_public_key;
     secretKey := env_or_empty env_secret_key;
     baseUrl := "https://api.iloveimg.com";
     tool := "compressimage";
     authUrl := "https://api.iloveimg.com/v1/auth" |}.

Inductive ImageFormat : Type := image_jpeg | image_png.

Definition format_string (f : ImageFormat) : string :=
  match f with
  | image_jpeg => "image/jpeg"
  | image_png => "image/png"
  end.

Record ImageConfig : Type := mkImageConfig
  { width : Z;
    height : Z;
    quality : Q;
    format : ImageFormat }.

Definition imageConfig : ImageConfig :=
  {| width := 560; height := 315; quality := 85 # 100; format := image_jpeg |}.

(** The [extension] getter. *)
Definition extension (c : ImageConfig) : string :=
  if String.eqb (format_string (format c)) "image/png" then "png" else "jpg".

(** ** The network and the runtime *)

Inductive FormValue : Type :=
  | FormField (v : jsval)
  | FormFile (content : Blob) (filename : string).

Inductive RequestBody : Type :=
  | NoBody
  | JsonBody (v : jsval)
  | FormBody (fields : list (string * FormValue)).

Record Request : Type := mkRequest
  { req_url : string;
    req_method : string;
    req_headers : list (string * string);
    req_body : RequestBody }.

(** A response; reading its body as text, JSON or a Blob is a promise that
    can reject. *)
Record Response : Type := mkResponse
  { ok : bool;
    status : Z;
    statusText : string;
    res_headers : list (string * string);
    res_text : Result string;
    res_json : Result jsval;
    res_blob : Result Blob }.

(** What the code gets from outside: the reply to its n-th [fetch], and
    the parts of the JS runtime that are not spelled out here. *)
Record Runtime : Type := mkRuntime
  { fetch_reply : nat -> Request -> Result Response;
    ToString_other : jsval -> string;
    JSON_parse : string -> option jsval;
    JSON_stringify : jsval -> string;
    TypeError_message : jsval -> string -> string }.

(** ** The state of the service worker and its monad

    The state is the module-level [cachedToken] and the list of the
    requests issued so far.  A computation runs on a state and returns a
    value or throws; an [await] is a bind.  Console output is left out. *)

Record CachedToken : Type := mkCachedToken
  { token : jsval; expiresAt : Z }.

Record World : Type := mkWorld
  { cachedToken : option CachedToken;
    requests : list Request }.

Definition M (A : Type) : Type := World -> Result A * World.

Definition ret {A} (a : A) : M A := fun w => (Ok a, w).

Definition throw {A} (e : thrown) : M A := fun w => (Throw e, w).

Definition bind {A B} (m : M A) (k : A -> M B) : M B :=
  fun w =>
    match m w with
    | (Ok a, w') => k a w'
    | (Throw e, w') => (Throw e, w')
    end.

Definition lift {A} (r : Result A) : M A := fun w => (r, w).

Notation "x <- c1 ;; c2" := (bind c1 (fun x => c2))
  (at level 100, c1 at next level, right associativity).
Notation "c1 ;;; c2" := (bind c1 (fun _ => c2))
  (at level 100, right associativity).

Definition new_Error {A} (message : string) : M A := throw (JsError message).

(** Token validity period: 2 hours in milliseconds *)
Definition TOKEN_VALIDITY_MS : Z := 2 * 60 * 60 * 1000.

(** [try { body } catch (error) { handler }] *)
Definition try_catch {A} (body : M A) (handler : thrown -> M A) : M A :=
  fun w =>
    match body w with
    | (Ok a, w') => (Ok a, w')
    | (Throw e, w') => handler e w'
    end.

Definition get_cachedToken : M (option CachedToken) :=
  fun w => (Ok (cachedToken w), w).

Definition set_cachedToken (c : CachedToken) : M unit :=
  fun w => (Ok tt, {| cachedToken := Some c; requests := requests w |}).

(** [v === s] for a string literal [s]. *)
Definition is_string (v : jsval) (s : string) : bool :=
  match v with
  | JStr t => String.eqb t s
  | _ => false
  end.

Definition newline : string := String (ascii_of_nat 10) EmptyString.

(** The result of compressImage: [{ blob, compressed, error?, details? }]. *)
Record CompressionResult : Type := mkCompressionResult
  { blob : Blob;
    compressed : bool;
    error : option string;
    details : jsval }.

(** [((1 - compressedSize / originalSize) * 100).toFixed(1) + "%"] *)
Definition reduction_percent (originalSize compressedSize : Z)
    : Binary64.float :=
  Binary64.mul
    (Binary64.sub (Binary64.of_Z 1)
       (Binary64.div (Binary64.of_Z compressedSize)
                     (Binary64.of_Z originalSize)))
    (Binary64.of_Z 100).

Definition reduction (originalSize compressedSize : Z) : string :=
  toFixed1 (reduction_percent originalSize compressedSize) ++ "%".

Section Worker.

Variable rt : Runtime.
Variable cfg : ApiConfig.

(** A template string's conversion of an embedded value. *)
Definition ToString (v : jsval) : string :=
  match v with
  | JStr s => s
  | _ => ToString_other rt v
  end.

(** [v.k], which throws a TypeError on null and undefined. *)
Definition member (v : jsval) (k : string) : M jsval :=
  if nullish v then new_Error (TypeError_message rt v k) else ret (prop v k).

(** [await fetch(url, init)]: the request is issued and the reply is the
    one the network gives to this request at this point of the run. *)
Definition fetch (req : Request) : M Response :=
  fun w =>
    (fetch_reply rt (length (requests w)) req,
     {| cachedToken := cachedToken w; requests := requests w ++ [req] |}).

Definition bearer (token : jsval) : string * string :=
  ("Authorization", "Bearer " ++ ToString token).

Definition config_error_message : string :=
  "iLoveIMG Public Key not configured. " ++
  "Please create a .env file in the project root and add: " ++
  "PLASMO_PUBLIC_ILOVEIMG_PUBLIC_KEY=your_public_key_here".

Definition auth_request : Request :=
  {| req_url := authUrl cfg;
     req_method := "POST";
     req_headers := [("Content-Type", "application/json")];
     req_body := JsonBody (JObj {[ "public_key" := JStr (publicKey cfg) ]}) |}.

(** The part of getAuthToken after the cache check. *)
Definition request_new_token (now : Z) : M jsval :=
  response <- fetch auth_request ;;
  if negb (ok response) then
    errorText <- lift (res_text response) ;;
    new_Error ("Authentication failed: " ++ string_of_Z (status response)
               ++ " " ++ statusText response)
  else
    data <- lift (res_json response) ;;
    token <- member data "token" ;;
    if negb (truthy token) then
      new_Error "No token received from authentication endpoint"
    else
      (* Cache the token with expiration time (2 hours from now) *)
      set_cachedToken {| token := token;
                         expiresAt := now + TOKEN_VALIDITY_MS |} ;;;
      ret token.

(** [now] is the value of [Date.now()] in this call. *)
Definition getAuthToken (now : Z) : M jsval :=
  if negb (truthy (JStr (publicKey cfg))) then
    new_Error config_error_message
  else
    cached <- get_cachedToken ;;
    (* Check if we have a valid cached token *)
    match cached with
    | Some c =>
        if expiresAt c >? now then ret (token c) else request_new_token now
    | None => request_new_token now
    end.

Definition start_request (token : jsval) : Request :=
  {| req_url := baseUrl cfg ++ "/v1/start/" ++ tool cfg;
     req_method := "GET";
     req_headers := [bearer token];
     req_body := NoBody |}.

Definition upload_request (token server task : jsval) (imageBlob : Blob)
    : Request :=
  {| req_url := "https://" ++ ToString server ++ "/v1/upload";
     req_method := "POST";
     req_headers := [bearer token];
     req_body := FormBody [("task", FormField task);
                           ("file", FormFile imageBlob "image.jpg")] |}.

Definition process_request (token server task serverFilename : jsval)
    : Request :=
  {| req_url := "https://" ++ ToString server ++ "/v1/process";
     req_method := "POST";
     req_headers := [bearer token; ("Content-Type", "application/json")];
     req_body :=
       JsonBody (JObj (<[ "task" := task ]>
                      (<[ "tool" := JStr (tool cfg) ]>
                      {[ "files" :=
                           JArr [JObj (<[ "server_filename" := serverFilename ]>
                                       {[ "filename" := serverFilename ]})] ]})))
  |}.

Definition download_request (token server task : jsval) : Request :=
  {| req_url := "https://" ++ ToString server ++ "/v1/download/"
                ++ ToString task;
     req_method := "GET";
     req_headers := [bearer token];
     req_body := NoBody |}.

(** The error thrown when the start request is answered with a status that
    is not ok. *)
Definition start_failure (startResponse : Response) : M unit :=
  errorText <- lift (res_text startResponse) ;;
  let errorJson := default JNull (JSON_parse rt errorText) in
  (* Extract error message from response *)
  let errorMessage :=
    js_or (js_or (js_or (opt_prop (opt_prop errorJson "error") "message")
                        (opt_prop errorJson "message"))
                 (JStr errorText))
          (JStr (statusText startResponse)) in
  let errorParam :=
    if truthy (opt_prop (opt_prop errorJson "error") "param")
    then JSON_stringify rt (prop (prop errorJson "error") "param")
    else "" in
  new_Error ("Start task failed (" ++ string_of_Z (status startResponse)
             ++ "): " ++ ToString errorMessage
             ++ (if truthy (JStr errorParam)
                 then newline ++ "Details: " ++ errorParam else "")).

(** Step 2: Start task - Get server and task ID *)
Definition start_task (token : jsval) : M (jsval * jsval) :=
  startResponse <- fetch (start_request token) ;;
  (if negb (ok startResponse) then start_failure startResponse
   else ret tt) ;;;
  startData <- lift (res_json startResponse) ;;
  server <- member startData "server" ;;
  task <- member startData "task" ;;
  if negb (truthy server) || negb (truthy task) then
    new_Error "Invalid response from start endpoint"
  else ret (server, task).

(** Step 3: Upload file *)
Definition upload_file (token server task : jsval) (imageBlob : Blob)
    : M jsval :=
  uploadResponse <- fetch (upload_request token server task imageBlob) ;;
  if negb (ok uploadResponse) then
    errorText <- lift (res_text uploadResponse) ;;
    new_Error ("Upload failed: " ++ string_of_Z (status uploadResponse)
               ++ " " ++ statusText uploadResponse)
  else
    uploadData <- lift (res_json uploadResponse) ;;
    serverFilename <- member uploadData "server_filename" ;;
    if negb (truthy serverFilename) then
      new_Error "Invalid response from upload endpoint"
    else ret serverFilename.

(** Step 4: Process file *)
Definition process_file (token server task serverFilename : jsval) : M unit :=
  processResponse <-
    fetch (process_request token server task serverFilename) ;;
  if negb (ok processResponse) then
    errorText <- lift (res_text processResponse) ;;
    new_Error ("Process failed: " ++ string_of_Z (status processResponse)
               ++ " " ++ statusText processResponse)
  else
    processData <- lift (res_json processResponse) ;;
    processStatus <- member processData "status" ;;
    if negb (is_string processStatus "TaskSuccess") then
      new_Error ("Processing failed: "
                 ++ ToString (js_or (prop processData "status_message")
                                    (JStr "Unknown error")))
    else ret tt.

(** Step 5: Download processed file *)
Definition download_file (token server task : jsval) : M Blob :=
  downloadResponse <- fetch (download_request token server task) ;;
  if negb (ok downloadResponse) then
    errorText <- lift (res_text downloadResponse) ;;
    new_Error ("Download failed: " ++ string_of_Z (status downloadResponse)
               ++ " " ++ statusText downloadResponse)
  else lift (res_blob downloadResponse).

(** [{ originalSize, compressedSize, reduction }] *)
Definition size_details (imageBlob compressedBlob : Blob) : jsval :=
  JObj (<[ "originalSize" := JNum (inject_Z (blob_size imageBlob)) ]>
       (<[ "compressedSize" := JNum (inject_Z (blob_size compressedBlob)) ]>
       {[ "reduction" :=
            JStr (reduction (blob_size imageBlob)
                            (blob_size compressedBlob)) ]})).

(** The body of the [try] block of compressImage: the five steps in
    sequence, a [throw] in one of them skipping the rest. *)
Definition compress_workflow (now : Z) (imageBlob : Blob)
    : M CompressionResult :=
  (* Step 1: Get authentication token *)
  token <- getAuthToken now ;;
  st <- start_task token ;;
  let '(server, task) := st in
  serverFilename <- upload_file token server task imageBlob ;;
  process_file token server task serverFilename ;;;
  compressedBlob <- download_file token server task ;;
  ret {| blob := compressedBlob;
         compressed := true;
         error := None;
         details := size_details imageBlob compressedBlob |}.

(** [error instanceof Error ? error.message : "Unknown error"] *)
Definition message_of (e : thrown) : string :=
  match e with
  | JsError message => message
  | JsOther => "Unknown error"
  end.

Definition compressImage (now : Z) (imageBlob : Blob) : M CompressionResult :=
  try_catch (compress_workflow now imageBlob)
    (fun error =>
       let errorMessage := message_of error in
       (* Fallback: return original image if compression fails *)
       ret {| blob := imageBlob;
              compressed := false;
              error := Some errorMessage;
              details := JObj {[ "fallback" := JBool true ]} |}).

End Worker.

(** ** The capture handler *)

Record Tab : Type := mkTab { tab_id : Z }.

(** The browser services used by the capture: the screenshot of the
    visible tab (a data URL), the tab lookup, the script injected in the
    tab to read [window.innerWidth] and [window.innerHeight], the decoding
    of the screenshot into an ImageBitmap (its width and height), the two
    canvases that crop, resize and encode, and base64 encoding. *)
Record Browser : Type := mkBrowser
  { captureVisibleTab : Result string;
    tabs_get : Z -> Result Tab;
    executeScript : Z -> Result (option (Q * Q));
    createImageBitmap : string -> Result (Z * Z);
    draw_and_convertToBlob :
      string -> Region -> Z -> Z -> ImageFormat -> Q -> Result Blob;
    btoa : Blob -> string }.

Record CaptureMessage : Type := mkCaptureMessage
  { tabId : Z;
    bounds : Bounds;
    templateId : option string }.

Section Capture.

Variable rt : Runtime.
Variable br : Browser.
Variable cfg : ApiConfig.
Variable icfg : ImageConfig.

(** processImage: the screenshot is decoded, the viewport is read from
    the tab when there is one, and the canvases crop, resize and encode.
    The canvas services of [Browser] are functions of the crop rectangle
    of the exact model; the same rectangle as the floats give it is
    [Binary64.processImage_region]. *)
Definition processImage (imageData : string) (cropBounds : Bounds)
    (targetWidth targetHeight : Z) (tabInfo : option Tab) : Result Blob :=
  match createImageBitmap br imageData with
  | Throw e => Throw e
  | Ok (screenshotWidth, screenshotHeight) =>
      (* Try to get actual viewport size from tab *)
      let tabViewport :=
        match tabInfo with
        | Some tab =>
            match executeScript br (tab_id tab) with
            | Ok results => results
            | Throw _ => None
            end
        | None => None
        end in
      draw_and_convertToBlob br imageData
        (processImage_region cropBounds screenshotWidth screenshotHeight
           tabViewport)
        targetWidth targetHeight (format icfg) (quality icfg)
  end.

(** [templateId ? `${templateId}.${ext}` : `thumbnail-${Date.now()}.${ext}`] *)
Definition capture_filename (templateId : option string) (now : Z) : string :=
  let thumbnail := "thumbnail-" ++ string_of_Z now ++ "." ++ extension icfg in
  match templateId with
  | Some id =>
      if truthy (JStr id) then id ++ "." ++ extension icfg else thumbnail
  | None => thumbnail
  end.

(** [nowAuth] and [nowName] are the values of [Date.now()] in getAuthToken
    and in the file name. *)
Definition handleScreenshotCapture (nowAuth nowName : Z)
    (message : CaptureMessage) : M jsval :=
  (* Step 1: Capture screenshot of the visible tab *)
  dataUrl <- lift (captureVisibleTab br) ;;
  if negb (truthy (JStr dataUrl)) then
    new_Error "Failed to capture screenshot"
  else
  (* Step 2 & 3: Crop and resize to configured dimensions *)
  tab <- lift (tabs_get br (tabId message)) ;;
  resizedBlob <-
    lift (processImage dataUrl (bounds message) (width icfg) (height icfg)
            (Some tab)) ;;
  (* Step 4: Compress using iLoveIMG API *)
  compressionResult <- compressImage rt cfg nowAuth resizedBlob ;;
  let finalBlob := blob compressionResult in
  (* Step 5: Convert blob to data URL for download *)
  let filename := capture_filename (templateId message) nowName in
  let base64 := btoa br finalBlob in
  let imageDataUrl :=
    "data:" ++ format_string (format icfg) ++ ";base64," ++ base64 in
  ret (JObj (<[ "success" := JBool true ]>
            (<[ "filename" := JStr filename ]>
            {[ "imageDataUrl" := JStr imageDataUrl ]}))).

(** The [captureScreenshot] listener: what [sendResponse] is called with
    ([senderTab] is [sender.tab?.id]).  A rejection with a value that is
    not an Error is answered with the [message] of that value, read as
    undefined.  A rejection with null or undefined itself, which neither
    the code nor the browser's functions produce, would make the handler
    throw on [error.message] and send no response; [JsOther] does not
    stand for these two values here. *)
Definition captureScreenshot_response (nowAuth nowName : Z)
    (senderTab : option Z) (message_bounds : Bounds)
    (message_templateId : option string) (w : World) : jsval * World :=
  match senderTab with
  | Some tabId =>
      if Z.eqb tabId 0 then (JObj {[ "error" := JStr "No tab ID found" ]}, w)
      else
        match handleScreenshotCapture nowAuth nowName
                {| tabId := tabId; bounds := message_bounds;
                   templateId := message_templateId |} w with
        | (Ok result, w') => (result, w')
        | (Throw (JsError message), w') =>
            (JObj {[ "error" := JStr message ]}, w')
        | (Throw JsOther, w') => (JObj {[ "error" := JUndefined ]}, w')
        end
  | None => (JObj {[ "error" := JStr "No tab ID found" ]}, w)
  end.

End Capture.

(** ** The callers: popup and content script *)

(** The popup refuses an identifier that is blank after trimming and sends
    the trimmed identifier with [showSelectionOverlay]. *)
Definition popup_templateId (input : string) : option string :=
  if negb (truthy (JStr (trim input))) then None else Some (trim input).

(** The content script keeps [message.templateId || null]. *)
Definition overlay_templateId (message_templateId : option string)
    : option string :=
  match message_templateId with
  | Some id => if truthy (JStr id) then Some id else None
  | None => None
  end.

(** What the content script hands to the download dialog after a capture:
    [{ imageDataUrl: response.imageDataUrl, filename: response.filename,
       compression: response.compression }], or the error it raises when
    [response.error] is set. *)
Record DownloadData : Type := mkDownloadData
  { dl_imageDataUrl : jsval;
    dl_filename : jsval;
    dl_compression : jsval }.

Definition handleCapture_downloadData (rt : Runtime) (response : jsval)
    : Result DownloadData :=
  if truthy (prop response "error") then
    Throw (JsError (ToString rt (prop response "error")))
  else
    Ok {| dl_imageDataUrl := prop response "imageDataUrl";
          dl_filename := prop response "filename";
          dl_compression := prop response "compression" |}.

(** The download dialog shows the compression status only when it was
    given one: [{compression && (...)}]. *)
Definition DownloadUI_shows_compression (d : DownloadData) : bool :=
  truthy (dl_compression d).

(** ** The specification's wording of the bounds and of the file name *)

(** A selection of non-negative width and height within the bounds of a
    viewport of [logicalWidth] x [logicalHeight]: its corner is a point of
    the viewport [0, logicalWidth) x [0, logicalHeight) and it does not
    extend past the viewport's edges. *)
Definition within_viewport (selection : Bounds)
    (logicalWidth logicalHeight : Q) : Prop :=
  (0 <= b_x selection /\ b_x selection < logicalWidth /\
   0 <= b_y selection /\ b_y selection < logicalHeight /\
   0 <= b_width selection /\ 0 <= b_height selection /\
   b_x selection + b_width selection <= logicalWidth /\
   b_y selection + b_height selection <= logicalHeight)%Q.

(** A pixel region that lies fully within [0, pixelWidth) x
    [0, pixelHeight). *)
Definition within_raster (r : Region) (pixelWidth pixelHeight : Z) : Prop :=
  exists x y w h : Z,
    r = mkRegion (Fin x) (Fin y) (Fin w) (Fin h) /\
    0 <= x < pixelWidth /\ 0 <= y < pixelHeight /\
    0 <= w /\ 0 <= h /\
    x + w <= pixelWidth /\ y + h <= pixelHeight.

(** The two readings of "a non-empty trimmed string": a string that is not
    empty and is its own trimmed form, or a string whose trimmed form is
    not empty. *)
Definition nonempty_and_trimmed (s : string) : bool :=
  negb (String.eqb s "") && String.eqb (trim s) s.

Definition nonempty_after_trim (s : string) : bool :=
  negb (String.eqb (trim s) "").

(** The file name as the specification describes it, for a reading
    [accepts] of "non-empty trimmed string". *)
Definition spec_filename (accepts : string -> bool) (icfg : ImageConfig)
    (templateId : option string) (currentEpochMs : Z) : string :=
  let ext := match format icfg with
             | image_jpeg => "jpg"
             | image_png => "png"
             end in
  match templateId with
  | Some id =>
      if accepts id then id ++ "." ++ ext
      else "thumbnail-" ++ string_of_Z currentEpochMs ++ "." ++ ext
  | None => "thumbnail-" ++ string_of_Z currentEpochMs ++ "." ++ ext
  end.

(** ** Scripted runs

    A network that answers the n-th request with the n-th reply of a list
    and fails afterwards, and a runtime built on it. *)

Definition scripted (replies : list (Result Response))
    : nat -> Request -> Result Response :=
  fun n _ => nth n replies (Throw (JsError "Failed to fetch")).

Definition scripted_runtime (replies : list (Result Response)) : Runtime :=
  {| fetch_reply := scripted replies;
     ToString_other := fun _ => "[object Object]";
     JSON_parse := fun _ => None;
     JSON_stringify := fun _ => "{}";
     TypeError_message :=
       fun _ k => "Cannot read properties of null (reading '" ++ k ++ "')" |}.

Definition json_reply (v : jsval) : Result Response :=
  Ok {| ok := true; status := 200; statusText := "OK"; res_headers := [];
        res_text := Ok ""; res_json := Ok v; res_blob := Ok [] |}.

Definition blob_reply (b : Blob) : Result Response :=
  Ok {| ok := true; status := 200; statusText := "OK"; res_headers := [];
        res_text := Ok ""; res_json := Throw (JsError "Unexpected token");
        res_blob := Ok b |}.

Definition status_reply (code : Z) (text : string) : Result Response :=
  Ok {| ok := false; status := code; statusText := text; res_headers := [];
        res_text := Ok ""; res_json := Throw (JsError "Unexpected end of JSON input");
        res_blob := Ok [] |}.

Definition configured : ApiConfig := iLoveIMGConfig (Some "project_public_key") None.

Definition unconfigured : ApiConfig := iLoveIMGConfig None None.

Definition token_reply : Result Response :=
  json_reply (JObj {[ "token" := JStr "tok-1" ]}).

Definition start_reply : Result Response :=
  json_reply (JObj (<[ "server" := JStr "api11.iloveimg.com" ]>
                   {[ "task" := JStr "task-1" ]})).

Definition upload_reply : Result Response :=
  json_reply (JObj {[ "server_filename" := JStr "f1.jpg" ]}).

Definition process_reply (status : string) : Result Response :=
  json_reply (JObj {[ "status" := JStr status ]}).

Definition empty_world : World := {| cachedToken := None; requests := [] |}.

Definition zeros (n : Z) : Blob := repeat "000"%byte (Z.to_nat n).

(** A browser in which every service answers: a 1280x720 screenshot of a
    1280x720 viewport, encoded to four bytes. *)
Definition scripted_browser : Browser :=
  {| captureVisibleTab := Ok "data:image/png;base64,iVBORw0KGgo=";
     tabs_get := fun id => Ok {| tab_id := id |};
     executeScript := fun _ => Ok (Some (1280, 720)%Q);
     createImageBitmap := fun _ => Ok (1280, 720);
     draw_and_convertToBlob := fun _ _ _ _ _ _ => Ok (zeros 4);
     btoa := fun _ => "AAAAAA==" |}.

Definition capture_message (templateId : option string) : CaptureMessage :=
  {| tabId := 7; bounds := mkBounds 100 100 320 180;
     templateId := templateId |}.

(** The cached token is still valid at time [now]:
    [cachedToken && cachedToken.expiresAt > now]. *)
Definition cache_valid (w : World) (now : Z) : bool :=
  match cachedToken w with
  | Some c => expiresAt c >? now
  | None => false
  end.

(** A world with a cached token that expires at [expiry]. *)
Definition cached_world (t : string) (expiry : Z) : World :=
  {| cachedToken := Some {| token := JStr t; expiresAt := expiry |};
     requests := [] |}.

(** The fallback result of compressImage. *)
Definition fallback_result (imageBlob : Blob) (errorMessage : string)
    : CompressionResult :=
  {| blob := imageBlob;
     compressed := false;
     error := Some errorMessage;
     details := JObj {[ "fallback" := JBool true ]} |}.

(** ** The binary string of the final image

    Step 5 of handleScreenshotCapture turns the bytes of the final Blob
    into a string, 8192 bytes at a time, before [btoa]:
    [for (let i = 0; i < uint8Array.length; i += chunkSize)]. *)

(** [String.fromCharCode(...chunk)] *)
Definition fromCharCode (chunk : list byte) : string :=
  string_of_list_byte chunk.

(** [uint8Array.subarray(i, i + chunkSize)] *)
Definition subarray (uint8Array : list byte) (i chunkSize : nat) : list byte :=
  firstn chunkSize (skipn i uint8Array).

(** The loop, from index [i] with [binaryString] built so far; [fuel]
    bounds the number of iterations. *)
Fixpoint binaryString_loop (fuel : nat) (uint8Array : list byte)
    (chunkSize i : nat) (binaryString : string) : string :=
  match fuel with
  | O => binaryString
  | S fuel' =>
      if (i <? length uint8Array)%nat then
        let chunk := subarray uint8Array i chunkSize in
        binaryString_loop fuel' uint8Array chunkSize (i + chunkSize)
          (binaryString ++ fromCharCode chunk)
      else binaryString
  end.

Definition chunkSize : nat := Z.to_nat 8192.

Definition binaryString_of (finalBlob : Blob) : string :=
  binaryString_loop (length finalBlob) finalBlob chunkSize 0 "".

(** A state in which the cached token, when there is one, is truthy. *)
Definition cache_truthy (w : World) : Prop :=
  forall c, cachedToken w = Some c -> truthy (token c) = true.

(** ** The selection overlay of the content script

    Window sizes and box coordinates are finite numbers; as for the crop
    they are taken as exact rationals, 0.6 and 0.8 standing for 6/10 and
    8/10. *)

Definition ASPECT_RATIO : Q := 16 / 9.
Definition minWidth : Q := 240.
Definition minHeight : Q := minWidth / ASPECT_RATIO.


(** The names of the eight resize handles ([enableResizing]). *)
Definition resize_directions : list string :=
  ["top"; "right"; "bottom"; "left";
   "topRight"; "bottomRight"; "bottomLeft"; "topLeft"].

(** handleResize: [newWidth] and [newHeight] are the integers parsed from
    the style of the box, [position] is the position given by the widget,
    [bounds] the current state.  The result is the new state. *)
Definition handleResize (innerWidth innerHeight : Q) (bounds : Bounds)
    (direction : string) (newWidth newHeight : Z) (position : Q * Q)
    : Bounds :=
  (* Determine which edge is being resized *)
  let '(width, height) :=
    if includes "right" direction || includes "left" direction
    then (inject_Z newWidth, (inject_Z newWidth / ASPECT_RATIO)%Q)
    else ((inject_Z newHeight * ASPECT_RATIO)%Q, inject_Z newHeight) in
  (* Apply constraints *)
  let width := Qmax minWidth (Qmin width (innerWidth * (8 # 10))) in
  let height := Qmax minHeight (Qmin height (innerHeight * (8 # 10))) in
  (* Adjust position if resizing from left or top *)
  let newX :=
    if includes "left" direction
    then (b_x bounds + b_width bounds - width)%Q else fst position in
  let newY :=
    if includes "top" direction
    then (b_y bounds + b_height bounds - height)%Q else snd position in
  (* Keep within viewport *)
  let newX := Qmax 0 (Qmin newX (innerWidth - width)) in
  let newY := Qmax 0 (Qmin newY (innerHeight - height)) in
  {| b_x := newX; b_y := newY; b_width := width; b_height := height |}.


(** ** The state of the content script

    [overlayState] is the module-level object, the rest is the state of
    the PlasmoOverlay component; the component's listener copies [show]
    and [templateId] into it on every notification. *)

Record ContentState : Type := mkContentState
  { overlay_show : bool;
    overlay_id : option string;
    showOverlay : bool;
    c_templateId : option string;
    isProcessing : bool;
    downloadData : option DownloadData;
    alerts : list string }.

(** [overlayState.listeners.forEach((listener) => listener())] *)
Definition notify (s : ContentState) : ContentState :=
  {| overlay_show := overlay_show s;
     overlay_id := overlay_id s;
     showOverlay := overlay_show s;
     c_templateId := overlay_id s;
     isProcessing := isProcessing s;
     downloadData := downloadData s;
     alerts := alerts s |}.

(** The module-level message listener; the boolean is its return value. *)
Definition content_onMessage (action : string)
    (message_templateId : option string) (s : ContentState)
    : ContentState * option jsval * bool :=
  if String.eqb action "showSelectionOverlay" then
    (notify {| overlay_show := true;
               overlay_id := overlay_templateId message_templateId;
               showOverlay := showOverlay s;
               c_templateId := c_templateId s;
               isProcessing := isProcessing s;
               downloadData := downloadData s;
               alerts := alerts s |},
     Some (JObj {[ "success" := JBool true ]}), true)
  else (s, None, false).

(** handleCapture, given what [chrome.runtime.sendMessage] resolves to or
    rejects with.  The second component is the template identifier sent
    with the request. *)
Definition handleCapture (rt : Runtime) (sendMessage : Result jsval)
    (s : ContentState) : ContentState * option string :=
  (* Hide overlay first *)
  let s1 := notify {| overlay_show := false;
                      overlay_id := overlay_id s;
                      showOverlay := showOverlay s;
                      c_templateId := c_templateId s;
                      isProcessing := isProcessing s;
                      downloadData := downloadData s;
                      alerts := alerts s |} in
  let sent := c_templateId s in
  let outcome :=
    match sendMessage with
    | Throw e => Throw e
    | Ok response =>
        if nullish response
        then Throw (JsError (TypeError_message rt response "error"))
        else handleCapture_downloadData rt response
    end in
  match outcome with
  | Ok d =>
      (* Show download UI with the processed image *)
      ({| overlay_show := overlay_show s1;
          overlay_id := overlay_id s1;
          showOverlay := showOverlay s1;
          c_templateId := c_templateId s1;
          isProcessing := false;
          downloadData := Some d;
          alerts := alerts s1 |}, sent)
  | Throw e =>
      (notify {| overlay_show := true; (* Show overlay again on error *)
                 overlay_id := overlay_id s1;
                 showOverlay := showOverlay s1;
                 c_templateId := c_templateId s1;
                 isProcessing := false;
                 downloadData := downloadData s1;
                 alerts :=
                   alerts s1 ++
                   ["Failed to capture screenshot: " ++
                    match e with
                    | JsError message => message
                    | JsOther => "Unknown error"
                    end] |}, sent)
  end.

(** handleCancel and handleCloseDownload. *)
Definition handleCancel (s : ContentState) : ContentState :=
  notify {| overlay_show := false;
            overlay_id := None;
            showOverlay := showOverlay s;
            c_templateId := c_templateId s;
            isProcessing := false;
            downloadData := None;
            alerts := alerts s |}.

Definition handleCloseDownload (s : ContentState) : ContentState :=
  notify {| overlay_show := false;
            overlay_id := None;
            showOverlay := showOverlay s;
            c_templateId := c_templateId s;
            isProcessing := isProcessing s;
            downloadData := None;
            alerts := alerts s |}.

(** What PlasmoOverlay renders. *)
Inductive View : Type :=
  | ViewDownload (d : DownloadData)
  | ViewLoading
  | ViewNothing
  | ViewSelection.

Definition render (s : ContentState) : View :=
  match downloadData s with
  | Some d => ViewDownload d
  | None =>
      if isProcessing s then ViewLoading
      else if negb (showOverlay s) then ViewNothing
      else ViewSelection
  end.

(** ** The popup *)

Record PopupState : Type := mkPopupState
  { p_templateId : string;
    p_isCapturing : bool;
    p_error : option string }.

(** The active tab as [chrome.tabs.query] reports it. *)
Record ActiveTab : Type := mkActiveTab
  { at_id : option Z;
    at_url : option string }.

(** What the popup gets from the browser: the tabs matching the query
    (its first element, if any), the protocol of a URL ([new URL(url)]
    throws on a malformed one), and the outcome of the first and of the
    second [chrome.tabs.sendMessage]. *)
Record PopupEnv : Type := mkPopupEnv
  { tabs_query : Result (option ActiveTab);
    url_protocol : string -> Result string;
    sendMessage_first : Result unit;
    sendMessage_retry : Result unit }.

(** A [showSelectionOverlay] message with its template identifier. *)
Record PopupOutcome : Type := mkPopupOutcome
  { po_state : PopupState;
    po_sent : list string;
    po_closed : bool }.

Definition restricted_protocol (protocol : string) : bool :=
  String.eqb protocol "chrome:" ||
  String.eqb protocol "chrome-extension:" ||
  String.eqb protocol "moz-extension:".

(** The [try] block of handleCaptureThumbnail: the identifiers sent, and
    whether it ran to [window.close()] or threw. *)
Definition start_capture (rt : Runtime) (env : PopupEnv) (templateId : string)
    : list string * Result unit :=
  match tabs_query env with
  | Throw e => ([], Throw e)
  | Ok None => ([], Throw (JsError (TypeError_message rt JUndefined "id")))
  | Ok (Some tab) =>
      match at_id tab, at_url tab with
      | Some id, Some url =>
          if Z.eqb id 0 || String.eqb url "" then
            ([], Throw (JsError "No active tab found"))
          else
            match url_protocol env url with
            | Throw e => ([], Throw e)
            | Ok protocol =>
                if restricted_protocol protocol then
                  ([], Throw (JsError
                     "Cannot capture screenshots on this page. Please navigate to a regular webpage."))
                else
                  match sendMessage_first env with
                  | Ok _ => ([trim templateId], Ok tt)
                  | Throw _ =>
                      (* Wait a bit and retry *)
                      match sendMessage_retry env with
                      | Ok _ => ([trim templateId; trim templateId], Ok tt)
                      | Throw _ =>
                          ([trim templateId; trim templateId],
                           Throw (JsError
                             "Content script is not available on this page. Please refresh the page and try again."))
                      end
                  end
            end
      | _, _ => ([], Throw (JsError "No active tab found"))
      end
  end.

Definition handleCaptureThumbnail (rt : Runtime) (env : PopupEnv)
    (s : PopupState) : PopupOutcome :=
  (* Validate template ID *)
  if negb (truthy (JStr (trim (p_templateId s)))) then
    {| po_state := {| p_templateId := p_templateId s;
                      p_isCapturing := p_isCapturing s;
                      p_error := Some "Please enter a Template ID" |};
       po_sent := [];
       po_closed := false |}
  else
    match start_capture rt env (p_templateId s) with
    | (sent, Ok _) =>
        (* Close popup after triggering capture *)
        {| po_state := {| p_templateId := p_templateId s;
                          p_isCapturing := true;
                          p_error := None |};
           po_sent := sent;
           po_closed := true |}
    | (sent, Throw err) =>
        {| po_state :=
             {| p_templateId := p_templateId s;
                p_isCapturing := false;
                p_error := Some match err with
                                | JsError message => message
                                | JsOther => "Failed to start capture"
                                end |};
           po_sent := sent;
           po_closed := false |}
    end.

(** A reply to the start request with status 400 and a structured error
    in its body, and a runtime that parses this body. *)
Definition structured_error_response : Response :=
  {| ok := false; status := 400; statusText := "Bad Request";
     res_headers := []; res_text := Ok "{...}";
     res_json := Throw JsOther; res_blob := Ok [] |}.

Definition structured_error_runtime : Runtime :=
  {| fetch_reply := scripted [Ok structured_error_response];
     ToString_other := fun _ => "[object Object]";
     JSON_parse :=
       fun _ => Some (JObj {[ "error" :=
                               JObj {[ "message" := JStr "Bad tool" ]} ]});
     JSON_stringify := fun _ => "{}";
     TypeError_message := fun _ _ => "" |}.

(** The scripted browser with a canvas that gives no 2d context. *)
Definition failing_canvas_browser : Browser :=
  {| captureVisibleTab := captureVisibleTab scripted_browser;
     tabs_get := tabs_get scripted_browser;
     executeScript := executeScript scripted_browser;
     createImageBitmap := createImageBitmap scripted_browser;
     draw_and_convertToBlob :=
       fun _ _ _ _ _ _ => Throw (JsError "Failed to get crop canvas context");
     btoa := btoa scripted_browser |}.

(** The content script showing the selection overlay for "hero". *)
Definition selecting_state : ContentState :=
  {| overlay_show := true; overlay_id := Some "hero";
     showOverlay := true; c_templateId := Some "hero";
     isProcessing := false; downloadData := None; alerts := [] |}.

(** The popup over a local page whose content script answers on the
    second attempt, and over a browser page. *)
Definition local_page_env : PopupEnv :=
  {| tabs_query :=
       Ok (Some {| at_id := Some 7; at_url := Some "http://localhost/hero" |});
     url_protocol := fun _ => Ok "http:";
     sendMessage_first := Throw (JsError "Could not establish connection.");
     sendMessage_retry := Ok tt |}.

Definition browser_page_env : PopupEnv :=
  {| tabs_query :=
       Ok (Some {| at_id := Some 7; at_url := Some "chrome://extensions/" |});
     url_protocol := fun _ => Ok "chrome:";
     sendMessage_first := Ok tt;
     sendMessage_retry := Ok tt |}.

Definition typed_state (input : string) : PopupState :=
  {| p_templateId := input; p_isCapturing := false; p_error := None |}.

(** The scripted browser on a page where the viewport probe throws, with
    a canvas that encodes a crop into as many bytes as it is wide. *)
Definition unprobed_browser : Browser :=
  {| captureVisibleTab := captureVisibleTab scripted_browser;
     tabs_get := tabs_get scripted_browser;
     executeScript :=
       fun _ => Throw (JsError "Cannot access contents of the page");
     createImageBitmap := createImageBitmap scripted_browser;
     draw_and_convertToBlob :=
       fun _ region _ _ _ _ =>
         match finalWidth region with
         | Fin w => Ok (zeros w)
         | _ => Throw JsOther
         end;
     btoa := btoa scripted_browser |}.

(** ** Replies that let a step return

    The [n]-th request of the run, [req], is answered: the network
    returns a response, its status is ok and its body is JSON for a value
    [data] that is neither null nor undefined. *)
Definition answered (rt : Runtime) (n : nat) (req : Request) (data : jsval)
    : Prop :=
  exists response,
    fetch_reply rt n req = Ok response /\ ok response = true /\
    res_json response = Ok data /\ nullish data = false.

(** ** The reported reduction against exact arithmetic

    The tenths that [toFixed(1)] prints, with their sign, and the test
    that they are nearest to ten times the exact percentage
    (1 - compressedSize / originalSize) * 100: at most one half away
    from it, so that on a tie either neighbour passes. *)

Definition signed_tenths (x : Binary64.float) : option Z :=
  match x with
  | S754_zero _ => Some 0
  | S754_finite s m e => Some (cond_Zopp s (Binary64.tenths m e))
  | _ => None
  end.

Definition nearest_tenth_check (originalSize compressedSize : Z) : bool :=
  match signed_tenths (reduction_percent originalSize compressedSize) with
  | Some n =>
      (Z.abs (2 * n * originalSize - 2000 * (originalSize - compressedSize))
       <=? originalSize)%Z
  | None => false
  end.

Fixpoint all_below (n : nat) (p : nat -> bool) : bool :=
  match n with
  | O => true
  | S k => p k && all_below k p
  end.

(** All pairs of an original size from 1 to [bound] and a compressed
    size from 0 to the original size. *)
Definition sizes_checked (bound : nat) : bool :=
  all_below bound (fun o =>
    all_below (S (S o)) (fun c =>
      nearest_tenth_check (Z.of_nat (S o)) (Z.of_nat c))).

(** ** Proof tactics *)

(** Runs of the monad are taken apart by cases on each intermediate
    result. *)
Ltac run_step :=
  match goal with
  | H : (_, _) = (_, _) |- _ => inversion H; subst; clear H
  | H : Ok _ = Ok _ |- _ => inversion H; subst; clear H
  | H : Ok _ = Throw _ |- _ => discriminate H
  | H : Throw _ = Ok _ |- _ => discriminate H
  | H : context [match ?x with _ => _ end] |- _ =>
      let E := fresh "E" in destruct x eqn:E
  | |- context [match ?x with _ => _ end] =>
      let E := fresh "E" in destruct x eqn:E
  end.

Ltac tidy_bool :=
  repeat match goal with
  | H : _ || _ = false |- _ => apply orb_false_elim in H as [? ?]
  | H : negb _ = false |- _ => apply negb_false_iff in H
  end.

Ltac unfold_monad :=
  unfold bind, ret, throw, lift, new_Error, try_catch, fetch, member,
    get_cachedToken, set_cachedToken in *;
  cbn [fst snd cachedToken requests] in *.


(** * Properties *)

(** ** Binary64 arithmetic *)

Section RoundingFacts.

Local Open Scope Q_scope.

(** The quotient of Euclidean division is the floor of the fraction. *)
Lemma floor_div_bounds (a b : Z) :
  (0 < b)%Z ->
  inject_Z (a / b) <= inject_Z a / inject_Z b < inject_Z (a / b) + 1.
Proof.
  intros Hb.
  assert (0 < inject_Z b) as HbQ
    by (change 0 with (inject_Z 0); now rewrite <- Zlt_Qlt).
  pose proof (Z.mul_div_le a b Hb) as Hle.
  pose proof (Z.mul_succ_div_gt a b Hb) as Hgt.
  split.
  - apply Qle_shift_div_l; [exact HbQ|].
    rewrite <- inject_Z_mult, <- Zle_Qle. lia.
  - apply Qlt_shift_div_r; [exact HbQ|].
    change 1 with (inject_Z 1). rewrite <- inject_Z_plus, <- inject_Z_mult.
    rewrite <- Zlt_Qlt. lia.
Qed.

Lemma round_half_up_nearest (z e : Z) :
  (e < 0)%Z ->
  let v := inject_Z z / inject_Z (2 ^ (- e)) in
  let n := Binary64.round_half_up z e in
  inject_Z n <= v + (1 # 2) < inject_Z n + 1.
Proof.
  intros He v n. subst v n. unfold Binary64.round_half_up.
  destruct (Z.leb_spec 0 e) as [H|_]; [lia|].
  set (k := (- e)%Z).
  assert (0 < 2 ^ k)%Z as Hpow by (apply Z.pow_pos_nonneg; lia).
  assert (0 < 2 ^ (k + 1))%Z as Hpow' by (apply Z.pow_pos_nonneg; lia).
  pose proof (floor_div_bounds (2 * z + 2 ^ k) (2 ^ (k + 1)) Hpow') as Hfloor.
  assert (inject_Z (2 * z + 2 ^ k) / inject_Z (2 ^ (k + 1))
          == inject_Z z / inject_Z (2 ^ k) + (1 # 2)) as Heq.
  { rewrite Z.pow_add_r, Z.pow_1_r by lia.
    rewrite inject_Z_plus, !inject_Z_mult.
    assert (0 < inject_Z (2 ^ k)) as HQ
      by (change 0 with (inject_Z 0); now rewrite <- Zlt_Qlt).
    change (inject_Z 2) with 2. field. lra. }
  rewrite Heq in Hfloor. exact Hfloor.
Qed.

(** [Math.round] of a float that has binary digits after the point. *)
Lemma Math_round_fraction (s : bool) (m : positive) (e : Z) :
  (e < 0)%Z ->
  exists n : Z,
    inject_Z n <= Binary64.value_of s m e + (1 # 2) < inject_Z n + 1 /\
    Binary64.Math_round (S754_finite s m e)
    = if (n =? 0)%Z then S754_zero s else Binary64.of_Z n.
Proof.
  intros He.
  exists (Binary64.round_half_up (cond_Zopp s (Z.pos m)) e). split.
  - unfold Binary64.value_of.
    destruct (Z.leb_spec 0 e) as [H|_]; [lia|].
    apply round_half_up_nearest. exact He.
  - unfold Binary64.Math_round.
    destruct (Z.leb_spec 0 e) as [H|_]; [lia|].
    now destruct (Binary64.round_half_up _ _).
Qed.

(** A float without binary digits after the point is an integer, and
    [Math.round] returns it. *)
Lemma Math_round_integral (s : bool) (m : positive) (e : Z) :
  (0 <= e)%Z ->
  Binary64.value_of s m e == inject_Z (cond_Zopp s (Z.pos m) * 2 ^ e) /\
  Binary64.Math_round (S754_finite s m e) = S754_finite s m e.
Proof.
  intros He. unfold Binary64.value_of, Binary64.Math_round.
  destruct (Z.leb_spec 0 e) as [_|H]; [|lia]. split; reflexivity.
Qed.

(** The tenths of [toFixed(1)] are nearest to ten times the value. *)
Lemma tenths_nearest (m : positive) (e : Z) :
  let v := Binary64.value_of false m e in
  v * 10 - (1 # 2) < inject_Z (Binary64.tenths m e) <= v * 10 + (1 # 2).
Proof.
  intros v. subst v. unfold Binary64.tenths, Binary64.value_of.
  unfold cond_Zopp.
  destruct (Z.leb_spec 0 e) as [He|He].
  - unfold Binary64.round_half_up.
    destruct (Z.leb_spec 0 e) as [_|H]; [|lia].
    rewrite !inject_Z_mult. change (inject_Z 10) with 10. split; lra.
  - pose proof (round_half_up_nearest (10 * Z.pos m) e He) as Hn.
    cbv zeta in Hn. rewrite inject_Z_mult in Hn.
    change (inject_Z 10) with 10 in Hn.
    assert (0 < inject_Z (2 ^ (- e))) as HQ.
    { change 0 with (inject_Z 0). rewrite <- Zlt_Qlt.
      apply Z.pow_pos_nonneg; lia. }
    assert (10 * inject_Z (Z.pos m) / inject_Z (2 ^ (- e))
            == inject_Z (Z.pos m) / inject_Z (2 ^ (- e)) * 10) as Heq
      by (field; lra).
    rewrite Heq in Hn. split; lra.
Qed.

End RoundingFacts.

(** Comparing in the other direction gives the opposite answer. *)
Lemma SFcompare_antisym (a b : Binary64.float) :
  SFcompare b a = option_map CompOpp (SFcompare a b).
Proof.
  destruct a as [sa|sa| |sa ma ea], b as [sb|sb| |sb mb eb]; cbn;
    try reflexivity;
    try (destruct sa; reflexivity); try (destruct sb; reflexivity);
    try (destruct sa, sb; reflexivity).
  destruct sa, sb; try reflexivity; f_equal;
    rewrite (Z.compare_antisym ea eb);
    destruct (ea ?= eb)%Z; cbn; try reflexivity;
    change (Pos.compare_cont Eq mb ma) with (mb ?= ma)%positive;
    change (Pos.compare_cont Eq ma mb) with (ma ?= mb)%positive;
    rewrite (Pos.compare_antisym ma mb); reflexivity.
Qed.

Lemma SFcompare_refl (a : Binary64.float) :
  a <> S754_nan -> SFcompare a a = Some Eq.
Proof.
  destruct a as [s|s| |s m e]; cbn; try congruence.
  - now destruct s.
  - intros _. rewrite Z.compare_refl.
    change (Pos.compare_cont Eq m m) with (m ?= m)%positive.
    rewrite Pos.compare_refl. now destruct s.
Qed.

(** [Math.min] returns one of its arguments, which is not above the
    other; [Math.max] one that is not below the other. *)
Lemma Math_min_max_spec (a b : Binary64.float) :
  match SFcompare a b with
  | None =>
      Binary64.Math_min a b = S754_nan /\ Binary64.Math_max a b = S754_nan
  | Some _ =>
      (Binary64.Math_min a b = a \/ Binary64.Math_min a b = b) /\
      SFleb (Binary64.Math_min a b) a = true /\
      SFleb (Binary64.Math_min a b) b = true /\
      (Binary64.Math_max a b = a \/ Binary64.Math_max a b = b) /\
      SFleb a (Binary64.Math_max a b) = true /\
      SFleb b (Binary64.Math_max a b) = true
  end.
Proof.
  pose proof (SFcompare_antisym a b) as Hanti.
  assert (SFcompare a b <> None -> a <> S754_nan /\ b <> S754_nan) as Hnan.
  { intros H. split; intros ->; apply H; [reflexivity|].
    now destruct a. }
  unfold Binary64.Math_min, Binary64.Math_max, SFleb.
  destruct (SFcompare a b) as [c|] eqn:Hab; [|split; reflexivity].
  destruct Hnan as [Ha Hb]; [discriminate|].
  pose proof (SFcompare_refl a Ha) as Haa.
  pose proof (SFcompare_refl b Hb) as Hbb.
  cbn in Hanti.
  destruct c; cbn in Hanti;
    destruct (Binary64.is_zero true a), (Binary64.is_zero false a);
    rewrite ?Haa, ?Hbb, ?Hab, ?Hanti; auto 10.
Qed.

(** *** The float of an integer *)

Lemma digits2_pos_bounds (m : positive) :
  2 ^ (Z.pos (digits2_pos m) - 1) <= Z.pos m < 2 ^ Z.pos (digits2_pos m).
Proof.
  induction m as [m IH|m IH|]; cbn [digits2_pos].
  - rewrite Pos2Z.inj_succ.
    replace (Z.succ (Z.pos (digits2_pos m)) - 1) with
      (Z.succ (Z.pos (digits2_pos m) - 1)) by lia.
    rewrite !Z.pow_succ_r by lia. lia.
  - rewrite Pos2Z.inj_succ.
    replace (Z.succ (Z.pos (digits2_pos m)) - 1) with
      (Z.succ (Z.pos (digits2_pos m) - 1)) by lia.
    rewrite !Z.pow_succ_r by lia. lia.
  - cbn. lia.
Qed.

Lemma digits2_pos_small (m : positive) :
  Z.pos m < 2 ^ 53 -> Z.pos (digits2_pos m) <= 53.
Proof.
  intros Hm. pose proof (digits2_pos_bounds m) as [Hlo _].
  destruct (Z.le_gt_cases (Z.pos (digits2_pos m)) 53) as [H|H]; [exact H|].
  assert (2 ^ 53 <= 2 ^ (Z.pos (digits2_pos m) - 1))
    by (apply Z.pow_le_mono_r; lia).
  lia.
Qed.

Lemma iter_xO_digits (m p : positive) :
  digits2_pos (Pos.iter xO m p) = (digits2_pos m + p)%positive.
Proof.
  induction p as [|p IH] using Pos.peano_ind.
  - cbn. lia.
  - rewrite Pos.iter_succ. cbn [digits2_pos]. rewrite IH. lia.
Qed.

Lemma iter_xO_value (m p : positive) :
  Z.pos (Pos.iter xO m p) = Z.pos m * 2 ^ Z.pos p.
Proof.
  induction p as [|p IH] using Pos.peano_ind.
  - cbn. lia.
  - rewrite Pos.iter_succ, Pos2Z.inj_succ, Z.pow_succ_r by lia.
    rewrite Pos2Z.inj_xO, IH. lia.
Qed.

(** A mantissa of 53 digits with an exponent in range is left as it is. *)
Lemma binary_round_aux_exact (s : bool) (m : positive) (e : Z) :
  Z.pos (digits2_pos m) = 53 -> -1074 <= e <= 971 ->
  binary_round_aux 53 1024 s (Z.pos m) e loc_Exact = S754_finite s m e.
Proof.
  intros Hd He. unfold binary_round_aux, shr_fexp, fexp, emin.
  cbn [Zdigits2 shr_record_of_loc]. rewrite Hd.
  replace (Z.max (53 + e - 53) (3 - 1024 - 53) - e) with 0 by lia.
  cbn [shr shr_m loc_of_shr_record round_nearest_even Zdigits2].
  rewrite Hd.
  replace (Z.max (53 + e - 53) (3 - 1024 - 53) - e) with 0 by lia.
  cbn [shr shr_m].
  destruct (Z.leb_spec e (1024 - 53)); [reflexivity|lia].
Qed.

Lemma binary_round_exact (s : bool) (m : positive) :
  Z.pos m < 2 ^ 53 ->
  exists (m' : positive) (e : Z),
    binary_round 53 1024 s m 0 = S754_finite s m' e /\
    -52 <= e <= 0 /\ Z.pos m' = Z.pos m * 2 ^ (- e).
Proof.
  intros Hm. pose proof (digits2_pos_small m Hm) as Hd.
  unfold binary_round, shl_align, fexp, emin.
  replace (Z.max (Z.pos (digits2_pos m) + 0 - 53) (3 - 1024 - 53) - 0)
    with (Z.pos (digits2_pos m) - 53) by lia.
  destruct (Z.pos (digits2_pos m) - 53) as [|p|p] eqn:Hp; [|lia|].
  - exists m, 0. split; [|split; [lia|cbn; lia]].
    apply binary_round_aux_exact; lia.
  - exists (Pos.iter xO m p).
    exists (Z.max (Z.pos (digits2_pos m) + 0 - 53) (3 - 1024 - 53)).
    replace (Z.max (Z.pos (digits2_pos m) + 0 - 53) (3 - 1024 - 53))
      with (Z.neg p) by lia.
    split; [|split; [lia|]].
    + apply binary_round_aux_exact; [|lia].
      rewrite iter_xO_digits, Pos2Z.inj_add. lia.
    + rewrite iter_xO_value. reflexivity.
Qed.

(** The float of an integer below 2^53 in absolute value stands for the
    integer. *)
Lemma of_Z_exact (z : Z) :
  z <> 0 -> Z.abs z < 2 ^ 53 ->
  exists (m : positive) (e : Z),
    Binary64.of_Z z = S754_finite (z <? 0)%Z m e /\
    (Binary64.value_of (z <? 0)%Z m e == inject_Z z)%Q.
Proof.
  intros Hz Hsmall. unfold Binary64.of_Z, binary_normalize.
  change Binary64.prec with 53. change Binary64.emax with 1024.
  destruct z as [|p|p]; [congruence| |].
  - destruct (binary_round_exact false p) as (m & e & -> & He & Hm); [lia|].
    exists m, e. split; [reflexivity|].
    change (Z.pos p <? 0)%Z with false.
    unfold Binary64.value_of, cond_Zopp.
    destruct (Z.leb_spec 0 e) as [H0|H0].
    + replace e with 0 in * by lia. rewrite Hm.
      apply inject_Z_injective. cbn. lia.
    + rewrite Hm, inject_Z_mult.
      assert (0 < inject_Z (2 ^ (- e)))%Q as HQ.
      { change 0%Q with (inject_Z 0). rewrite <- Zlt_Qlt.
        apply Z.pow_pos_nonneg; lia. }
      field. lra.
  - destruct (binary_round_exact true p) as (m & e & -> & He & Hm); [lia|].
    exists m, e. split; [reflexivity|].
    change (Z.neg p <? 0)%Z with true.
    unfold Binary64.value_of, cond_Zopp.
    destruct (Z.leb_spec 0 e) as [H0|H0].
    + replace e with 0 in * by lia. rewrite Hm.
      apply inject_Z_injective. cbn. lia.
    + rewrite inject_Z_opp, Hm, inject_Z_mult.
      change (inject_Z (Z.neg p)) with (- inject_Z (Z.pos p))%Q.
      assert (0 < inject_Z (2 ^ (- e)))%Q as HQ.
      { change 0%Q with (inject_Z 0). rewrite <- Zlt_Qlt.
        apply Z.pow_pos_nonneg; lia. }
      field. lra.
Qed.

(** ** The coordinate mapping *)

Section MappingFacts.

Local Open Scope Q_scope.

(** [Math.round] returns an integer at distance at most one half, the
    upper one on a tie. *)
Lemma Math_round_nearest (q : Q) :
  exists z : Z,
    Math_round (Fin q) = Fin z /\ q - (1 # 2) < inject_Z z <= q + (1 # 2).
Proof.
  exists (Qfloor (q + (1 # 2))). split; [reflexivity|].
  pose proof (Qfloor_le (q + (1 # 2))) as Hle.
  pose proof (Qlt_floor (q + (1 # 2))) as Hlt.
  rewrite inject_Z_plus in Hlt. change (inject_Z 1) with 1 in Hlt.
  split; lra.
Qed.

Lemma Math_round_nonneg (q : Q) :
  0 <= q -> (0 <= Qfloor (q + (1 # 2)))%Z.
Proof.
  intros Hq. change 0%Z with (Qfloor 0).
  apply Qfloor_resp_le. lra.
Qed.

Lemma scale_finite (pixels : Z) (logical : Q) :
  0 < logical ->
  div (ofZ pixels) (Fin logical) = Fin (inject_Z pixels / logical).
Proof.
  intros Hpos. unfold div, ofZ.
  destruct (Qeq_bool logical 0) eqn:E; [|reflexivity].
  apply Qeq_bool_iff in E. lra.
Qed.

Lemma scaled_nonneg (v logical : Q) (pixels : Z) :
  0 <= v -> 0 < logical -> (0 < pixels)%Z ->
  0 <= v * (inject_Z pixels / logical).
Proof.
  intros Hv Hl Hp.
  apply Qmult_le_0_compat; [exact Hv|].
  apply Qlt_le_weak, Qlt_shift_div_l; [exact Hl|].
  rewrite Qmult_0_l. change 0 with (inject_Z 0).
  rewrite <- Zlt_Qlt. exact Hp.
Qed.

End MappingFacts.

(** One axis of the crop: scaled and clamped, the offset lies in the
    raster and the extent is non-negative and stops at the raster's edge. *)
Lemma crop_axis (pos len logical : Q) (pixels : Z) :
  (0 <= len)%Q -> (0 < logical)%Q -> 0 < pixels ->
  let scale := div (ofZ pixels) (Fin logical) in
  let final :=
    Math_max (Fin 0)
      (Math_min (Math_round (mul (Fin pos) scale))
                (sub (Fin pixels) (Fin 1))) in
  exists p l : Z,
    final = Fin p /\
    Math_min (Math_round (mul (Fin len) scale)) (sub (Fin pixels) final)
    = Fin l /\
    0 <= p < pixels /\ 0 <= l /\ p + l <= pixels.
Proof.
  intros Hlen Hlog Hpix scale final. subst final scale.
  rewrite scale_finite by exact Hlog.
  pose proof (Math_round_nonneg _ (scaled_nonneg len logical pixels
                                     Hlen Hlog Hpix)) as Hext.
  unfold mul, Math_round, sub, Math_min, Math_max.
  set (scaledPos := Qfloor _). set (scaledLen := Qfloor _) in *.
  eexists _, _. split; [reflexivity|]. split; [reflexivity|]. lia.
Qed.

(** Scenarios A and B of the specification, and a viewport of width and
    height 0, where the scale factors are infinite. *)
Example scenario_A :
  processImage_region (mkBounds 100 100 320 180) 1280 720 (Some (1280, 720)%Q)
  = mkRegion (Fin 100) (Fin 100) (Fin 320) (Fin 180).
Proof. vm_compute. reflexivity. Qed.

Example scenario_B :
  processImage_region (mkBounds 100 100 320 180) 2560 1440 (Some (1280, 720)%Q)
  = mkRegion (Fin 200) (Fin 200) (Fin 640) (Fin 360).
Proof. vm_compute. reflexivity. Qed.

Example scenario_no_tab_viewport :
  processImage_region (mkBounds 100 100 320 180) 1280 720 None
  = mkRegion (Fin 100) (Fin 100) (Fin 320) (Fin 180).
Proof. vm_compute. reflexivity. Qed.

Example scenario_zero_viewport :
  processImage_region (mkBounds 0 0 0 0) 1280 720 (Some (0, 0)%Q)
  = mkRegion NaN NaN NaN NaN.
Proof. vm_compute. reflexivity. Qed.

(** Scenarios of the specification in floats, and a selection that does
    not scale to an integer: 616 * (1541 / 1232) is 770.4999999999999 in
    binary64 and 770.5 in exact arithmetic. *)
Example scenario_B_binary64 :
  Binary64.processImage_region (Binary64.integer_bounds 100 100 320 180)
    2560 1440 (Some (Binary64.of_Z 1280, Binary64.of_Z 720))
  = Binary64.integer_region 200 200 640 360.
Proof. vm_compute. reflexivity. Qed.

Example scaled_tie_binary64 :
  SFcompare
    (SFmul 53 1024 (Binary64.of_Z 616)
       (SFdiv 53 1024 (Binary64.of_Z 1541) (Binary64.of_Z 1232)))
    (SFdiv 53 1024 (Binary64.of_Z 1541) (Binary64.of_Z 2))
  = Some Lt.
Proof. vm_compute. reflexivity. Qed.

Example scenario_zero_viewport_binary64 :
  Binary64.processImage_region (Binary64.integer_bounds 0 0 0 0)
    1280 720 (Some (Binary64.of_Z 0, Binary64.of_Z 0))
  = Binary64.mkRegion S754_nan S754_nan S754_nan S754_nan.
Proof. vm_compute. reflexivity. Qed.

(** C3: for every selection, viewport and raw capture, processImage
    computes the crop rectangle that the specification describes, in
    binary64 arithmetic: the scale factors are pixelWidth / logicalWidth
    and pixelHeight / logicalHeight; x and width are multiplied by the
    first and y and height by the second, each product rounded to the
    nearest integer; x is clamped into [0, pixelWidth - 1] and y into
    [0, pixelHeight - 1]; the width is min(scaledWidth, pixelWidth -
    clampedX) and the height likewise.  Division, multiplication and
    subtraction are those of IEEE 754.  The float of an integer below
    2^53 is the integer; [Math.round] gives the integer [n] with
    n <= v + 1/2 < n + 1 for a value [v] with binary digits after the
    point and returns an integral float as it is; [Math.min] and
    [Math.max] return one of their arguments, not above respectively
    not below the other, and NaN when an argument is NaN.

    The selection {1200, 100, 320, 180} at viewport 1280x720 with a raw
    capture of 1280x720 maps to {1200, 100, 80, 180}; {100, 100, 320,
    180} at viewport 1280x720 with a raw capture of 2560x1440 maps to
    {200, 200, 640, 360}; x = 616 at a viewport 1232 wide with a raw
    capture 1541 wide maps to 770; with no viewport read from the tab
    the raw capture's own size is the viewport. *)
Theorem processImage_region_is_the_mapping :
  (forall (selection : Binary64.Bounds)
          (logicalWidth logicalHeight : Binary64.float)
          (pixelWidth pixelHeight : Z),
      let scaleX := SFdiv 53 1024 (Binary64.of_Z pixelWidth) logicalWidth in
      let scaleY := SFdiv 53 1024 (Binary64.of_Z pixelHeight) logicalHeight in
      let scaledX :=
        Binary64.Math_round (SFmul 53 1024 (Binary64.b_x selection) scaleX) in
      let scaledY :=
        Binary64.Math_round (SFmul 53 1024 (Binary64.b_y selection) scaleY) in
      let scaledWidth :=
        Binary64.Math_round
          (SFmul 53 1024 (Binary64.b_width selection) scaleX) in
      let scaledHeight :=
        Binary64.Math_round
          (SFmul 53 1024 (Binary64.b_height selection) scaleY) in
      let r := Binary64.processImage_region selection pixelWidth pixelHeight
                 (Some (logicalWidth, logicalHeight)) in
      Binary64.finalX r
      = Binary64.Math_max (Binary64.of_Z 0)
          (Binary64.Math_min scaledX
             (SFsub 53 1024 (Binary64.of_Z pixelWidth) (Binary64.of_Z 1))) /\
      Binary64.finalY r
      = Binary64.Math_max (Binary64.of_Z 0)
          (Binary64.Math_min scaledY
             (SFsub 53 1024 (Binary64.of_Z pixelHeight) (Binary64.of_Z 1))) /\
      Binary64.finalWidth r
      = Binary64.Math_min scaledWidth
          (SFsub 53 1024 (Binary64.of_Z pixelWidth) (Binary64.finalX r)) /\
      Binary64.finalHeight r
      = Binary64.Math_min scaledHeight
          (SFsub 53 1024 (Binary64.of_Z pixelHeight) (Binary64.finalY r)))
  /\ (forall (selection : Binary64.Bounds) (pixelWidth pixelHeight : Z),
         Binary64.processImage_region selection pixelWidth pixelHeight None
         = Binary64.processImage_region selection pixelWidth pixelHeight
             (Some (Binary64.of_Z pixelWidth, Binary64.of_Z pixelHeight)))
  /\ (forall z : Z,
         z <> 0 -> Z.abs z < 2 ^ 53 ->
         exists (m : positive) (e : Z),
           Binary64.of_Z z = S754_finite (z <? 0)%Z m e /\
           (Binary64.value_of (z <? 0)%Z m e == inject_Z z)%Q)
  /\ Binary64.of_Z 0 = S754_zero false
  /\ (forall (s : bool) (m : positive) (e : Z),
         e < 0 ->
         exists n : Z,
           (inject_Z n <= Binary64.value_of s m e + (1 # 2)
            < inject_Z n + 1)%Q /\
           Binary64.Math_round (S754_finite s m e)
           = if (n =? 0)%Z then S754_zero s else Binary64.of_Z n)
  /\ (forall (s : bool) (m : positive) (e : Z),
         0 <= e ->
         (Binary64.value_of s m e
          == inject_Z (cond_Zopp s (Z.pos m) * 2 ^ e))%Q /\
         Binary64.Math_round (S754_finite s m e) = S754_finite s m e)
  /\ (forall a b : Binary64.float,
         match SFcompare a b with
         | None =>
             Binary64.Math_min a b = S754_nan /\
             Binary64.Math_max a b = S754_nan
         | Some _ =>
             (Binary64.Math_min a b = a \/ Binary64.Math_min a b = b) /\
             SFleb (Binary64.Math_min a b) a = true /\
             SFleb (Binary64.Math_min a b) b = true /\
             (Binary64.Math_max a b = a \/ Binary64.Math_max a b = b) /\
             SFleb a (Binary64.Math_max a b) = true /\
             SFleb b (Binary64.Math_max a b) = true
         end)
  /\ Binary64.processImage_region (Binary64.integer_bounds 1200 100 320 180)
       1280 720 (Some (Binary64.of_Z 1280, Binary64.of_Z 720))
     = Binary64.integer_region 1200 100 80 180
  /\ Binary64.processImage_region (Binary64.integer_bounds 100 100 320 180)
       2560 1440 (Some (Binary64.of_Z 1280, Binary64.of_Z 720))
     = Binary64.integer_region 200 200 640 360
  /\ Binary64.processImage_region (Binary64.integer_bounds 616 0 100 100)
       1541 720 (Some (Binary64.of_Z 1232, Binary64.of_Z 720))
     = Binary64.integer_region 770 0 125 100
  /\ Binary64.processImage_region (Binary64.integer_bounds 1200 100 320 180)
       1280 720 None
     = Binary64.integer_region 1200 100 80 180.
Proof.
  split; [|split; [|split; [|split; [|split; [|split; [|split]]]]]].
  - intros. repeat split; reflexivity.
  - intros. reflexivity.
  - exact of_Z_exact.
  - reflexivity.
  - exact Math_round_fraction.
  - exact Math_round_integral.
  - exact Math_min_max_spec.
  - repeat split; vm_compute; reflexivity.
Qed.

(** At 770.4999999999999 the rounding goes down, and the float of 770 is
    770. *)
Lemma processImage_region_is_the_mapping_witness :
  (exists (m : positive) (e : Z),
      Binary64.of_Z 770 = S754_finite false m e /\
      (Binary64.value_of false m e == 770)%Q)
  /\ (exists n : Z,
         (inject_Z n
          <= Binary64.value_of false 6777389673611263 (-43) + (1 # 2)
          < inject_Z n + 1)%Q /\
         Binary64.Math_round (S754_finite false 6777389673611263 (-43))
         = if (n =? 0)%Z then S754_zero false else Binary64.of_Z n).
Proof.
  destruct processImage_region_is_the_mapping
    as (_ & _ & Hint & _ & Hround & _).
  split.
  - apply (Hint 770); [discriminate|reflexivity].
  - apply (Hround false 6777389673611263%positive (-43)). reflexivity.
Defined.

(** C4: for every selection of non-negative width and height within the
    bounds of the viewport, and every raw capture of positive pixel
    dimensions, the crop rectangle lies fully within
    [0, pixelWidth) x [0, pixelHeight): x and y are in range, width and
    height are not negative, x + width <= pixelWidth and
    y + height <= pixelHeight. *)
Theorem crop_region_within_raster
    (selection : Bounds) (logicalWidth logicalHeight : Q)
    (pixelWidth pixelHeight : Z) :
  within_viewport selection logicalWidth logicalHeight ->
  0 < pixelWidth -> 0 < pixelHeight ->
  within_raster
    (crop_region selection pixelWidth pixelHeight
       (Fin logicalWidth) (Fin logicalHeight))
    pixelWidth pixelHeight.
Proof.
  intros (Hx0 & Hx1 & Hy0 & Hy1 & Hw & Hh & _ & _) HW HH.
  assert (0 < logicalWidth)%Q as HLW by lra.
  assert (0 < logicalHeight)%Q as HLH by lra.
  destruct (crop_axis (b_x selection) (b_width selection) logicalWidth
              pixelWidth Hw HLW HW) as (x & w & Ex & Ew & Hx & Hw0 & Hxw).
  destruct (crop_axis (b_y selection) (b_height selection) logicalHeight
              pixelHeight Hh HLH HH) as (y & h & Ey & Eh & Hy & Hh0 & Hyh).
  exists x, y, w, h. unfold crop_region. cbv zeta in Ex, Ew, Ey, Eh.
  rewrite Ex, Ey in *. rewrite Ew, Eh.
  repeat split; lia.
Qed.

Lemma crop_region_within_raster_witness :
  within_raster
    (crop_region (mkBounds 100 100 320 180) 2560 1440 (Fin 1280%Q) (Fin 720%Q))
    2560 1440.
Proof.
  apply (crop_region_within_raster (mkBounds 100 100 320 180) 1280 720
           2560 1440).
  - unfold within_viewport; cbn; repeat split; lra.
  - lia.
  - lia.
Defined.

(** ** The credential cache *)

(** C9: with no public key configured, getAuthToken fails with the
    configuration error, whatever the cache holds: the configuration
    check comes first, so a cached token, even a valid one, is not
    returned, and nothing is requested or changed. *)
Theorem getAuthToken_unconfigured
    (rt : Runtime) (cfg : ApiConfig) (now : Z) (w : World) :
  publicKey cfg = "" ->
  getAuthToken rt cfg now w = (Throw (JsError config_error_message), w).
Proof.
  intros Hkey. unfold getAuthToken. rewrite Hkey. reflexivity.
Qed.

Lemma getAuthToken_unconfigured_witness :
  cache_valid (cached_world "tok-0" 10000) 5000 = true /\
  getAuthToken (scripted_runtime [token_reply]) unconfigured 5000
    (cached_world "tok-0" 10000)
  = (Throw (JsError config_error_message), cached_world "tok-0" 10000).
Proof.
  split; [reflexivity|].
  apply (getAuthToken_unconfigured (scripted_runtime [token_reply])
           unconfigured 5000 (cached_world "tok-0" 10000)).
  reflexivity.
Defined.

(** The request for a new token always issues the authentication request,
    and touches the cache only when it returns a token. *)
Lemma request_new_token_run
    (rt : Runtime) (cfg : ApiConfig) (now : Z) (w : World) :
  exists r w',
    request_new_token rt cfg now w = (r, w') /\
    requests w' = (requests w ++ [auth_request cfg])%list /\
    match r with
    | Ok t =>
        cachedToken w' = Some {| token := t;
                                 expiresAt := now + TOKEN_VALIDITY_MS |} /\
        truthy t = true
    | Throw _ => cachedToken w' = cachedToken w
    end.
Proof.
  unfold request_new_token. unfold_monad.
  repeat (run_step; unfold_monad);
    eexists _, _; (split; [reflexivity|]); cbn; try (split; reflexivity).
  split; [reflexivity|]. split; [reflexivity|].
  destruct (truthy _); [reflexivity|discriminate].
Qed.

(** C10: when getAuthToken fails (configuration error, network error,
    status that is not ok, unreadable or malformed body, missing token), the
    cached credential is left as it was: the cache is written only after a
    token has been received. *)
Theorem getAuthToken_failure_keeps_cache
    (rt : Runtime) (cfg : ApiConfig) (now : Z) (w w' : World) (e : thrown) :
  getAuthToken rt cfg now w = (Throw e, w') ->
  cachedToken w' = cachedToken w.
Proof.
  unfold getAuthToken. intros Hrun.
  destruct (negb (truthy (JStr (publicKey cfg)))).
  { unfold_monad. now inversion Hrun. }
  unfold bind at 1 in Hrun. unfold get_cachedToken in Hrun.
  destruct (request_new_token_run rt cfg now w) as (r & w1 & Hreq & _ & Hr).
  destruct (cachedToken w) as [c|] eqn:Ecache.
  - destruct (expiresAt c >? now).
    + unfold_monad. discriminate Hrun.
    + rewrite Hreq in Hrun. inversion Hrun; subst. congruence.
  - rewrite Hreq in Hrun. inversion Hrun; subst. congruence.
Qed.

Lemma getAuthToken_failure_keeps_cache_witness :
  exists e w',
    getAuthToken (scripted_runtime [status_reply 401 "Unauthorized"])
      configured 5000 (cached_world "tok-0" 1000) = (Throw e, w') /\
    cachedToken w' = cachedToken (cached_world "tok-0" 1000).
Proof.
  eexists _, _. split.
  - vm_compute. reflexivity.
  - apply (getAuthToken_failure_keeps_cache
             (scripted_runtime [status_reply 401 "Unauthorized"])
             configured 5000 (cached_world "tok-0" 1000) _
             (JsError "Authentication failed: 401 Unauthorized")).
    vm_compute. reflexivity.
Defined.

(** The same holds for a network error and for a reply without token. *)
Example failed_refresh_network_error :
  getAuthToken (scripted_runtime []) configured 5000 (cached_world "tok-0" 1000)
  = (Throw (JsError "Failed to fetch"),
     {| cachedToken := Some {| token := JStr "tok-0"; expiresAt := 1000 |};
        requests := [auth_request configured] |}).
Proof. vm_compute. reflexivity. Qed.

Example failed_refresh_missing_token :
  getAuthToken (scripted_runtime [json_reply (JObj ∅)]) configured 5000
    (cached_world "tok-0" 1000)
  = (Throw (JsError "No token received from authentication endpoint"),
     {| cachedToken := Some {| token := JStr "tok-0"; expiresAt := 1000 |};
        requests := [auth_request configured] |}).
Proof. vm_compute. reflexivity. Qed.

(** A valid cached token is returned as it is, with no request. *)
Lemma getAuthToken_cache_hit
    (rt : Runtime) (cfg : ApiConfig) (now : Z) (w : World) (c : CachedToken) :
  truthy (JStr (publicKey cfg)) = true ->
  cachedToken w = Some c -> now < expiresAt c ->
  getAuthToken rt cfg now w = (Ok (token c), w).
Proof.
  intros Hkey Hc Hnow. unfold getAuthToken. rewrite Hkey.
  cbn [negb]. unfold_monad. rewrite Hc. replace (expiresAt c >? now) with true by lia. reflexivity.
Qed.

(** Without a valid cached token, getAuthToken is the request for a new
    one. *)
Lemma getAuthToken_cache_miss
    (rt : Runtime) (cfg : ApiConfig) (now : Z) (w : World) :
  truthy (JStr (publicKey cfg)) = true ->
  cache_valid w now = false ->
  getAuthToken rt cfg now w = request_new_token rt cfg now w.
Proof.
  intros Hkey Hmiss. unfold getAuthToken, cache_valid in *. rewrite Hkey.
  cbn [negb]. unfold_monad. destruct (cachedToken w); [rewrite Hmiss|]; reflexivity.
Qed.

(** C5: with a public key configured, getAuthToken returns the cached
    credential without a request whenever the current time is strictly
    before the cached expiry; otherwise it performs one authentication
    request and, when a token comes back, caches it with expiry exactly
    7,200,000 ms after the time of the request; so a second call within
    these two hours returns the same token and the two calls together have
    issued exactly one authentication request. *)
Theorem getAuthToken_caches_for_two_hours
    (rt : Runtime) (cfg : ApiConfig) (now now2 : Z) (w : World) :
  truthy (JStr (publicKey cfg)) = true ->
  (forall c, cachedToken w = Some c -> now < expiresAt c ->
             getAuthToken rt cfg now w = (Ok (token c), w))
  /\ (cache_valid w now = false ->
      exists r w1,
        getAuthToken rt cfg now w = (r, w1) /\
        requests w1 = (requests w ++ [auth_request cfg])%list /\
        forall t, r = Ok t ->
          cachedToken w1 = Some {| token := t; expiresAt := now + 7200000 |} /\
          (now2 < now + 7200000 ->
           getAuthToken rt cfg now2 w1 = (Ok t, w1))).
Proof.
  intros Hkey. split.
  - intros c Hc Hnow. now apply getAuthToken_cache_hit.
  - intros Hmiss. rewrite getAuthToken_cache_miss by assumption.
    destruct (request_new_token_run rt cfg now w) as (r & w1 & Hrun & Hreq & Hr).
    exists r, w1. split; [exact Hrun|]. split; [exact Hreq|].
    intros t ->. destruct Hr as [Hcache _].
    change TOKEN_VALIDITY_MS with 7200000 in Hcache.
    split; [exact Hcache|]. intros Hnow2.
    apply (getAuthToken_cache_hit rt cfg now2 w1 _ Hkey Hcache). exact Hnow2.
Qed.

Lemma getAuthToken_caches_for_two_hours_witness :
  getAuthToken (scripted_runtime [token_reply]) configured 1000 empty_world
  = (Ok (JStr "tok-1"),
     {| cachedToken := Some {| token := JStr "tok-1"; expiresAt := 7201000 |};
        requests := [auth_request configured] |}) /\
  getAuthToken (scripted_runtime [token_reply]) configured 7200999
    {| cachedToken := Some {| token := JStr "tok-1"; expiresAt := 7201000 |};
       requests := [auth_request configured] |}
  = (Ok (JStr "tok-1"),
     {| cachedToken := Some {| token := JStr "tok-1"; expiresAt := 7201000 |};
        requests := [auth_request configured] |}).
Proof.
  destruct (getAuthToken_caches_for_two_hours
              (scripted_runtime [token_reply]) configured 1000 7200999
              empty_world eq_refl) as [_ Hmiss].
  destruct (Hmiss eq_refl) as (r & w1 & Hrun & Hreq & Hok).
  assert (r = Ok (JStr "tok-1") /\
          w1 = {| cachedToken :=
                    Some {| token := JStr "tok-1"; expiresAt := 7201000 |};
                  requests := [auth_request configured] |}) as [-> ->].
  { vm_compute in Hrun. now inversion Hrun. }
  destruct (Hok _ eq_refl) as [_ Hsecond].
  split; [vm_compute; reflexivity|]. apply Hsecond. lia.
Defined.

(** The expiry is strict: at the expiry itself a new token is requested. *)
Example refresh_at_expiry :
  getAuthToken (scripted_runtime [token_reply]) configured 7201000
    (cached_world "tok-0" 7201000)
  = (Ok (JStr "tok-1"),
     {| cachedToken := Some {| token := JStr "tok-1"; expiresAt := 14401000 |};
        requests := [auth_request configured] |}).
Proof. vm_compute. reflexivity. Qed.

(** ** The compression workflow *)

(** compressImage is its workflow with every exception turned into the
    fallback result. *)
Lemma compressImage_run
    (rt : Runtime) (cfg : ApiConfig) (now : Z) (imageBlob : Blob) (w : World) :
  compressImage rt cfg now imageBlob w
  = match compress_workflow rt cfg now imageBlob w with
    | (Ok r, w') => (Ok r, w')
    | (Throw e, w') => (Ok (fallback_result imageBlob (message_of e)), w')
    end.
Proof. reflexivity. Qed.

(** The workflow returns a result only when each of the five steps has
    returned, one after the other, and that result is the compressed one. *)
Lemma compress_workflow_success
    (rt : Runtime) (cfg : ApiConfig) (now : Z) (imageBlob : Blob)
    (w w' : World) (r : CompressionResult) :
  compress_workflow rt cfg now imageBlob w = (Ok r, w') ->
  exists token server task serverFilename compressedBlob w1 w2 w3 w4,
    getAuthToken rt cfg now w = (Ok token, w1) /\
    start_task rt cfg token w1 = (Ok (server, task), w2) /\
    upload_file rt token server task imageBlob w2 = (Ok serverFilename, w3) /\
    process_file rt cfg token server task serverFilename w3 = (Ok tt, w4) /\
    download_file rt token server task w4 = (Ok compressedBlob, w') /\
    r = {| blob := compressedBlob; compressed := true; error := None;
           details := size_details imageBlob compressedBlob |}.
Proof.
  unfold compress_workflow, bind, ret. intros Hrun.
  destruct (getAuthToken rt cfg now w) as [[token|e] w1] eqn:E1;
    [|discriminate].
  destruct (start_task rt cfg token w1) as [[[server task]|e] w2] eqn:E2;
    [|discriminate].
  destruct (upload_file rt token server task imageBlob w2)
    as [[serverFilename|e] w3] eqn:E3; [|discriminate].
  destruct (process_file rt cfg token server task serverFilename w3)
    as [[[]|e] w4] eqn:E4; [|discriminate].
  destruct (download_file rt token server task w4)
    as [[compressedBlob|e] w5] eqn:E5; [|discriminate].
  inversion Hrun; subst.
  exists token, server, task, serverFilename, compressedBlob, w1, w2, w3, w4.
  repeat split; reflexivity || assumption.
Qed.

(** A step returns only on a reply with an ok status whose body holds what
    the step reads. *)
Lemma start_task_success
    (rt : Runtime) (cfg : ApiConfig) (token server task : jsval) (w w' : World) :
  start_task rt cfg token w = (Ok (server, task), w') ->
  exists response data,
    fetch_reply rt (length (requests w)) (start_request rt cfg token)
    = Ok response /\
    ok response = true /\ res_json response = Ok data /\
    nullish data = false /\
    server = prop data "server" /\ task = prop data "task" /\
    truthy server = true /\ truthy task = true /\
    w' = {| cachedToken := cachedToken w;
            requests := requests w ++ [start_request rt cfg token] |}.
Proof.
  unfold start_task, start_failure. unfold_monad. intros Hrun.
  repeat (run_step; unfold_monad).
  tidy_bool.
  eexists _, _. repeat split; eassumption || reflexivity.
Qed.

Lemma upload_file_success
    (rt : Runtime) (token server task serverFilename : jsval)
    (imageBlob : Blob) (w w' : World) :
  upload_file rt token server task imageBlob w = (Ok serverFilename, w') ->
  exists response data,
    fetch_reply rt (length (requests w))
      (upload_request rt token server task imageBlob) = Ok response /\
    ok response = true /\ res_json response = Ok data /\
    nullish data = false /\
    serverFilename = prop data "server_filename" /\
    truthy serverFilename = true /\
    w' = {| cachedToken := cachedToken w;
            requests := requests w
                        ++ [upload_request rt token server task imageBlob] |}.
Proof.
  unfold upload_file. unfold_monad. intros Hrun.
  repeat (run_step; unfold_monad).
  tidy_bool.
  eexists _, _. repeat split; eassumption || reflexivity.
Qed.

Lemma process_file_success
    (rt : Runtime) (cfg : ApiConfig) (token server task serverFilename : jsval)
    (w w' : World) :
  process_file rt cfg token server task serverFilename w = (Ok tt, w') ->
  exists response data,
    fetch_reply rt (length (requests w))
      (process_request rt cfg token server task serverFilename)
    = Ok response /\
    ok response = true /\ res_json response = Ok data /\
    nullish data = false /\
    prop data "status" = JStr "TaskSuccess" /\
    w' = {| cachedToken := cachedToken w;
            requests := requests w
              ++ [process_request rt cfg token server task serverFilename] |}.
Proof.
  unfold process_file. unfold_monad. intros Hrun.
  repeat (run_step; unfold_monad).
  tidy_bool.
  eexists _, _. repeat split; try (eassumption || reflexivity).
  match goal with
  | H : is_string ?v _ = true |- ?v = _ =>
      unfold is_string in H; destruct v; try discriminate H;
      apply String.eqb_eq in H; now subst
  end.
Qed.

Lemma download_file_success
    (rt : Runtime) (token server task : jsval) (compressedBlob : Blob)
    (w w' : World) :
  download_file rt token server task w = (Ok compressedBlob, w') ->
  exists response,
    fetch_reply rt (length (requests w))
      (download_request rt token server task) = Ok response /\
    ok response = true /\ res_blob response = Ok compressedBlob /\
    w' = {| cachedToken := cachedToken w;
            requests := requests w
                        ++ [download_request rt token server task] |}.
Proof.
  unfold download_file. unfold_monad. intros Hrun.
  repeat (run_step; unfold_monad).
  tidy_bool.
  eexists. repeat split; eassumption || reflexivity.
Qed.

Lemma request_new_token_success
    (rt : Runtime) (cfg : ApiConfig) (now : Z) (t : jsval) (w w' : World) :
  request_new_token rt cfg now w = (Ok t, w') ->
  exists response data,
    fetch_reply rt (length (requests w)) (auth_request cfg) = Ok response /\
    ok response = true /\ res_json response = Ok data /\
    nullish data = false /\ t = prop data "token" /\
    truthy t = true /\
    w' = {| cachedToken :=
              Some {| token := t; expiresAt := now + TOKEN_VALIDITY_MS |};
            requests := requests w ++ [auth_request cfg] |}.
Proof.
  unfold request_new_token. unfold_monad. intros Hrun.
  repeat (run_step; unfold_monad). tidy_bool.
  eexists _, _. repeat split; eassumption || reflexivity.
Qed.

(** getAuthToken returns a token only with a key configured, and then
    either the valid cached token or the token of an ok reply. *)
Lemma getAuthToken_success
    (rt : Runtime) (cfg : ApiConfig) (now : Z) (t : jsval) (w w' : World) :
  getAuthToken rt cfg now w = (Ok t, w') ->
  truthy (JStr (publicKey cfg)) = true /\
  ((exists c, cachedToken w = Some c /\ now < expiresAt c /\
              t = token c /\ w' = w)
   \/ (cache_valid w now = false /\
       request_new_token rt cfg now w = (Ok t, w'))).
Proof.
  intros Hrun.
  destruct (truthy (JStr (publicKey cfg))) eqn:Hkey.
  - split; [reflexivity|].
    destruct (cache_valid w now) eqn:Hvalid.
    + left. unfold cache_valid in Hvalid.
      destruct (cachedToken w) as [c|] eqn:Ecache; [|discriminate].
      assert (now < expiresAt c) as Hlt by lia.
      rewrite (getAuthToken_cache_hit rt cfg now w c Hkey Ecache Hlt) in Hrun.
      inversion Hrun; subst. exists c. repeat split; assumption.
    + right. split; [reflexivity|].
      now rewrite <- (getAuthToken_cache_miss rt cfg now w Hkey Hvalid).
  - unfold getAuthToken in Hrun. rewrite Hkey in Hrun. discriminate Hrun.
Qed.

(** C1: compressImage never throws.  For every image and every run of
    the network it returns a result, and this result is the compressed
    one only if no step has failed: a key is configured; the token is the
    valid cached one or the truthy [token] of an answered authentication
    request; the start request is answered with a truthy [server] and
    [task]; the upload request, sent to that server for that task with
    the input image, is answered with a truthy [server_filename]; the
    process request is answered with the status "TaskSuccess"; and the
    download request gets a response with an ok status whose body is the
    returned Blob.  In every other run, whichever step failed and
    however (configuration error, network error, status that is not ok,
    malformed response, missing field), the result is the fallback:
    compressed = false, an error message, and the input image's buffer
    itself.  In particular, when any request issued by the call got no
    response or a response whose status is not ok, the result is the
    fallback. *)
Theorem compressImage_never_throws
    (rt : Runtime) (cfg : ApiConfig) (now : Z) (imageBlob : Blob) (w : World) :
  exists r w',
    compressImage rt cfg now imageBlob w = (Ok r, w') /\
    ((compressed r = true /\ error r = None /\
      truthy (JStr (publicKey cfg)) = true /\
      exists (t server task serverFilename : jsval) (n : nat),
        ((exists c,
             cachedToken w = Some c /\ now < expiresAt c /\
             t = token c /\ n = length (requests w))
         \/ (cache_valid w now = false /\ n = S (length (requests w)) /\
             exists data,
               answered rt (length (requests w)) (auth_request cfg) data /\
               t = prop data "token" /\ truthy t = true)) /\
        (exists data,
            answered rt n (start_request rt cfg t) data /\
            server = prop data "server" /\ task = prop data "task" /\
            truthy server = true /\ truthy task = true) /\
        (exists data,
            answered rt (n + 1)%nat
              (upload_request rt t server task imageBlob) data /\
            serverFilename = prop data "server_filename" /\
            truthy serverFilename = true) /\
        (exists data,
            answered rt (n + 2)%nat
              (process_request rt cfg t server task serverFilename)
              data /\
            prop data "status" = JStr "TaskSuccess") /\
        (exists response,
            fetch_reply rt (n + 3)%nat (download_request rt t server task)
            = Ok response /\
            ok response = true /\ res_blob response = Ok (blob r)))
     \/
     (compressed r = false /\ blob r = imageBlob /\
      details r = JObj {[ "fallback" := JBool true ]} /\
      exists e,
        compress_workflow rt cfg now imageBlob w = (Throw e, w') /\
        error r = Some (message_of e))) /\
    (forall (i : nat) (req : Request),
        (length (requests w) <= i)%nat ->
        requests w' !! i = Some req ->
        (forall response, fetch_reply rt i req = Ok response ->
                          ok response = false) ->
        compressed r = false /\ blob r = imageBlob /\
        exists message, error r = Some message).
Proof.
  rewrite compressImage_run.
  destruct (compress_workflow rt cfg now imageBlob w) as [[r|e] w'] eqn:Hrun.
  - exists r, w'. split; [reflexivity|].
    destruct (compress_workflow_success _ _ _ _ _ _ _ Hrun)
      as (token & server & task & sf & cb & w1 & w2 & w3 & w4 &
          H1 & H2 & H3 & H4 & H5 & ->).
    destruct (getAuthToken_success _ _ _ _ _ _ H1) as [Hkey Hauth].
    destruct (start_task_success _ _ _ _ _ _ _ H2)
      as (r2 & d2 & F2 & O2 & J2 & N2 & Es & Et & Ts & Tt & ->).
    destruct (upload_file_success _ _ _ _ _ _ _ _ H3)
      as (r3 & d3 & F3 & O3 & J3 & N3 & Ef & Tf & ->).
    destruct (process_file_success _ _ _ _ _ _ _ _ H4)
      as (r4 & d4 & F4 & O4 & J4 & N4 & S4 & ->).
    destruct (download_file_success _ _ _ _ _ _ _ H5)
      as (r5 & F5 & O5 & B5 & Ew').
    set (n := length (requests w1)).
    match type of F3 with
    | fetch_reply rt ?i _ = _ =>
        replace i with (n + 1)%nat in F3
          by (subst n; cbn [requests]; rewrite ?length_app; cbn; lia)
    end.
    match type of F4 with
    | fetch_reply rt ?i _ = _ =>
        replace i with (n + 2)%nat in F4
          by (subst n; cbn [requests]; rewrite ?length_app; cbn; lia)
    end.
    match type of F5 with
    | fetch_reply rt ?i _ = _ =>
        replace i with (n + 3)%nat in F5
          by (subst n; cbn [requests]; rewrite ?length_app; cbn; lia)
    end.
    assert (requests w'
            = (requests w1
               ++ [start_request rt cfg token;
                   upload_request rt token server task imageBlob;
                   process_request rt cfg token server task sf;
                   download_request rt token server task])%list) as Htrace.
    { rewrite Ew'. cbn [requests]. now rewrite <- !app_assoc. }
    cbn [compressed error blob]. split.
    + left.
      split; [reflexivity|]. split; [reflexivity|]. split; [exact Hkey|].
      exists token, server, task, sf, n.
      split; [|split; [|split; [|split]]].
      * destruct Hauth as [(c & Hc & Hlt & -> & ->)|[Hinvalid Hnew]].
        -- left. exists c. repeat split; assumption || reflexivity.
        -- right.
           destruct (request_new_token_success _ _ _ _ _ _ Hnew)
             as (r1 & d1 & F1 & O1 & J1 & N1 & Etok & Ttok & ->).
           split; [exact Hinvalid|]. split.
           { subst n. cbn [requests]. rewrite length_app. cbn. lia. }
           exists d1. split; [|split; assumption].
           exists r1. repeat split; assumption.
      * exists d2. split; [exists r2; repeat split; assumption|].
        repeat split; assumption.
      * exists d3. split; [exists r3; repeat split; assumption|].
        split; assumption.
      * exists d4. split; [exists r4; repeat split; assumption|exact S4].
      * exists r5. repeat split; assumption.
    + intros i req Hi Hlook Hbad. exfalso.
      rewrite Htrace in Hlook.
      assert (forall j req' response,
                 fetch_reply rt j req' = Ok response -> ok response = true ->
                 i = j -> req = req' -> False) as Hgood.
      { intros j req' response HF HO -> ->.
        specialize (Hbad _ HF). congruence. }
      assert ((n <= i)%nat ->
              [start_request rt cfg token;
               upload_request rt token server task imageBlob;
               process_request rt cfg token server task sf;
               download_request rt token server task] !! (i - n)%nat
              = Some req -> False) as Hsteps.
      { intros Hn Hstep.
        destruct (i - n)%nat as [|[|[|[|k]]]] eqn:Hk; cbn in Hstep;
          try discriminate Hstep; inversion Hstep; subst req.
        - apply (Hgood _ _ _ F2 O2); [lia|reflexivity].
        - apply (Hgood _ _ _ F3 O3); [lia|reflexivity].
        - apply (Hgood _ _ _ F4 O4); [lia|reflexivity].
        - apply (Hgood _ _ _ F5 O5); [lia|reflexivity]. }
      destruct Hauth as [(c & Hc & Hlt & _ & Ew1)|[Hinvalid Hnew]].
      * subst w1. apply Hsteps; [exact Hi|].
        now rewrite lookup_app_r in Hlook by exact Hi.
      * destruct (request_new_token_success _ _ _ _ _ _ Hnew)
          as (r1 & d1 & F1 & O1 & J1 & N1 & Etok & Ttok & Ew1).
        assert (requests w1 = (requests w ++ [auth_request cfg])%list) as Hw1
          by (rewrite Ew1; reflexivity).
        assert (n = S (length (requests w))) as Hn
          by (subst n; rewrite Hw1, length_app; cbn; lia).
        destruct (Nat.eq_dec i (length (requests w))) as [Heq|Hne].
        -- rewrite Hw1, <- app_assoc in Hlook.
           rewrite lookup_app_r in Hlook by exact Hi.
           replace (i - length (requests w))%nat with 0%nat in Hlook by lia.
           cbn in Hlook. inversion Hlook; subst req.
           apply (Hgood _ _ _ F1 O1); [exact Heq|reflexivity].
        -- apply Hsteps; [lia|].
           rewrite lookup_app_r in Hlook by (fold n; lia). exact Hlook.
  - exists (fallback_result imageBlob (message_of e)), w'.
    split; [reflexivity|]. split.
    + right. cbn. repeat split. exists e. split; reflexivity.
    + intros _ _ _ _ _. cbn. repeat split. now eexists.
Qed.

(** A status 500 in answer to the upload request, the third of the run. *)
Lemma compressImage_never_throws_witness :
  exists r w',
    compressImage
      (scripted_runtime [token_reply; start_reply;
                         status_reply 500 "Internal Server Error"])
      configured 0 (zeros 4) empty_world = (Ok r, w') /\
    compressed r = false /\ blob r = zeros 4.
Proof.
  pose (rt := scripted_runtime
                [token_reply; start_reply;
                 status_reply 500 "Internal Server Error"]).
  fold rt.
  destruct (compressImage_never_throws rt configured 0 (zeros 4) empty_world)
    as (r & w' & Hrun & _ & Hfailed).
  exists r, w'. split; [exact Hrun|].
  assert (exists req, requests w' !! 2%nat = Some req /\
                      forall response, fetch_reply rt 2 req = Ok response ->
                                       ok response = false)
    as (req & Hlook & Hbad).
  { vm_compute in Hrun. inversion Hrun; subst w'. eexists.
    split; [reflexivity|].
    intros response Hreply. vm_compute in Hreply.
    inversion Hreply. reflexivity. }
  destruct (Hfailed 2%nat req ltac:(cbn; lia) Hlook Hbad) as (Hc & Hb & _).
  split; assumption.
Defined.

(** Failures at each of the five steps, on the image [zeros 4]: no key,
    network error on start, status 500 on upload, malformed body on start,
    missing field on upload, network error on download. *)
Example fallback_on_configuration_error :
  compressImage (scripted_runtime []) unconfigured 0 (zeros 4) empty_world
  = (Ok (fallback_result (zeros 4) config_error_message), empty_world).
Proof. vm_compute. reflexivity. Qed.

Example fallback_on_network_error :
  fst (compressImage (scripted_runtime [token_reply]) configured 0 (zeros 4)
         empty_world)
  = Ok (fallback_result (zeros 4) "Failed to fetch").
Proof. vm_compute. reflexivity. Qed.

Example fallback_on_status :
  fst (compressImage
         (scripted_runtime [token_reply; start_reply;
                            status_reply 500 "Internal Server Error"])
         configured 0 (zeros 4) empty_world)
  = Ok (fallback_result (zeros 4) "Upload failed: 500 Internal Server Error").
Proof. vm_compute. reflexivity. Qed.

Example fallback_on_malformed_body :
  fst (compressImage (scripted_runtime [token_reply; blob_reply []])
         configured 0 (zeros 4) empty_world)
  = Ok (fallback_result (zeros 4) "Unexpected token").
Proof. vm_compute. reflexivity. Qed.

Example fallback_on_missing_field :
  fst (compressImage
         (scripted_runtime [token_reply; start_reply; json_reply (JObj ∅)])
         configured 0 (zeros 4) empty_world)
  = Ok (fallback_result (zeros 4) "Invalid response from upload endpoint").
Proof. vm_compute. reflexivity. Qed.

Example fallback_on_download_error :
  fst (compressImage
         (scripted_runtime [token_reply; start_reply; upload_reply;
                            process_reply "TaskSuccess"])
         configured 0 (zeros 4) empty_world)
  = Ok (fallback_result (zeros 4) "Failed to fetch").
Proof. vm_compute. reflexivity. Qed.

(** C6: when the process step's response (the JSON body of a reply with
    an ok status) has a status field that is not "TaskSuccess", the
    workflow fails there: the process request is the last request issued,
    so no download is attempted, and compressImage returns compressed =
    false, an error message that contains "Processing failed", and the
    input buffer. *)
Theorem process_status_failure_falls_back
    (rt : Runtime) (cfg : ApiConfig) (now : Z) (imageBlob : Blob)
    (w w1 w2 w3 : World) (token server task serverFilename : jsval)
    (processResponse : Response) (processData : jsval) :
  getAuthToken rt cfg now w = (Ok token, w1) ->
  start_task rt cfg token w1 = (Ok (server, task), w2) ->
  upload_file rt token server task imageBlob w2 = (Ok serverFilename, w3) ->
  fetch_reply rt (length (requests w3))
    (process_request rt cfg token server task serverFilename)
  = Ok processResponse ->
  ok processResponse = true ->
  res_json processResponse = Ok processData ->
  nullish processData = false ->
  is_string (prop processData "status") "TaskSuccess" = false ->
  exists errorMessage,
    compressImage rt cfg now imageBlob w
    = (Ok {| blob := imageBlob; compressed := false;
             error := Some errorMessage;
             details := JObj {[ "fallback" := JBool true ]} |},
       {| cachedToken := cachedToken w3;
          requests :=
            requests w3
            ++ [process_request rt cfg token server task serverFilename] |})
    /\ includes "Processing failed" errorMessage = true.
Proof.
  intros H1 H2 H3 Hreply Hok Hjson Hnull Hstatus.
  rewrite compressImage_run. unfold compress_workflow, bind.
  rewrite H1, H2, H3. unfold process_file. unfold_monad.
  rewrite Hreply, Hok. cbn [negb]. rewrite Hjson, Hnull. unfold_monad.
  rewrite Hstatus. cbn [negb]. unfold_monad.
  eexists. split; [reflexivity|]. reflexivity.
Qed.

Lemma process_status_failure_falls_back_witness :
  exists errorMessage,
    fst (compressImage
           (scripted_runtime [token_reply; start_reply; upload_reply;
                              process_reply "TaskError"])
           configured 0 (zeros 4) empty_world)
    = Ok (fallback_result (zeros 4) errorMessage) /\
    includes "Processing failed" errorMessage = true /\
    length (requests
              (snd (compressImage
                      (scripted_runtime [token_reply; start_reply; upload_reply;
                                         process_reply "TaskError"])
                      configured 0 (zeros 4) empty_world))) = 4%nat.
Proof.
  edestruct (process_status_failure_falls_back
               (scripted_runtime [token_reply; start_reply; upload_reply;
                                  process_reply "TaskError"])
               configured 0 (zeros 4) empty_world)
    as (errorMessage & Hrun & Hincludes).
  - vm_compute. reflexivity.
  - vm_compute. reflexivity.
  - vm_compute. reflexivity.
  - vm_compute. reflexivity.
  - reflexivity.
  - reflexivity.
  - reflexivity.
  - vm_compute. reflexivity.
  - exists errorMessage. rewrite Hrun. split; [reflexivity|].
    split; [exact Hincludes|]. vm_compute. reflexivity.
Defined.

(** Scenario D with the message the server sent. *)
Example scenario_D :
  fst (compressImage
         (scripted_runtime
            [token_reply; start_reply; upload_reply;
             json_reply (JObj (<[ "status" := JStr "TaskError" ]>
                              {[ "status_message" :=
                                   JStr "Image is corrupted" ]}))])
         configured 0 (zeros 4) empty_world)
  = Ok (fallback_result (zeros 4) "Processing failed: Image is corrupted").
Proof. vm_compute. reflexivity. Qed.

(** A process reply whose status is not ok fails under another message. *)
Example process_http_failure :
  fst (compressImage
         (scripted_runtime [token_reply; start_reply; upload_reply;
                            status_reply 400 "Bad Request"])
         configured 0 (zeros 4) empty_world)
  = Ok (fallback_result (zeros 4) "Process failed: 400 Bad Request").
Proof. vm_compute. reflexivity. Qed.

(** ** The size reduction *)

Lemma lookup_reduction (imageBlob compressedBlob : Blob) :
  prop (size_details imageBlob compressedBlob) "reduction"
  = JStr (reduction (blob_size imageBlob) (blob_size compressedBlob)).
Proof.
  unfold size_details, prop.
  rewrite lookup_insert_ne by discriminate.
  rewrite lookup_insert_ne by discriminate.
  rewrite lookup_singleton_eq. reflexivity.
Qed.

Lemma all_below_spec (n : nat) (p : nat -> bool) :
  all_below n p = true -> forall k : nat, (k < n)%nat -> p k = true.
Proof.
  induction n as [|n IH]; cbn [all_below]; intros Hall k Hk; [lia|].
  apply andb_prop in Hall as [Hn Hrest].
  destruct (Nat.eq_dec k n) as [->|Hne]; [exact Hn|].
  apply IH; [exact Hrest|lia].
Qed.

Lemma sizes_checked_spec (bound : nat) :
  sizes_checked bound = true ->
  forall o c : nat,
    (o < bound)%nat -> (c < S (S o))%nat ->
    nearest_tenth_check (Z.of_nat (S o)) (Z.of_nat c) = true.
Proof.
  unfold sizes_checked. intros Hall o c Ho Hc.
  pose proof (all_below_spec bound _ Hall o Ho) as Hrow. cbv beta in Hrow.
  exact (all_below_spec (S (S o)) _ Hrow c Hc).
Qed.

Lemma sizes_checked_to_100 : sizes_checked 100 = true.
Proof. vm_compute. reflexivity. Qed.

Lemma nearest_tenth_check_small (originalSize compressedSize : Z) :
  0 < originalSize <= 100 -> 0 <= compressedSize <= originalSize ->
  nearest_tenth_check originalSize compressedSize = true.
Proof.
  intros Ho Hc.
  pose proof (sizes_checked_spec 100 sizes_checked_to_100
                (Z.to_nat (originalSize - 1)) (Z.to_nat compressedSize)
                ltac:(lia) ltac:(lia)) as Hcell.
  replace (Z.of_nat (S (Z.to_nat (originalSize - 1)))) with originalSize
    in Hcell by lia.
  replace (Z.of_nat (Z.to_nat compressedSize)) with compressedSize
    in Hcell by lia.
  exact Hcell.
Qed.

(** What the test establishes: the printed tenths, signed, are within
    one twentieth of the exact percentage. *)
Lemma nearest_tenth_check_sound (originalSize compressedSize : Z) :
  0 < originalSize ->
  nearest_tenth_check originalSize compressedSize = true ->
  exists (s : bool) (n : Z),
    reduction originalSize compressedSize
    = ((if s then "-" else "")
       ++ string_of_Z (n / 10) ++ "." ++ string_of_Z (n mod 10)) ++ "%" /\
    (Qabs (inject_Z (cond_Zopp s n) / 10
           - (1 - inject_Z compressedSize / inject_Z originalSize) * 100)
     <= 1 # 20)%Q.
Proof.
  intros Ho Hcheck. unfold nearest_tenth_check in Hcheck.
  unfold reduction.
  destruct (signed_tenths (reduction_percent originalSize compressedSize))
    as [sn|] eqn:Htenths; [|discriminate].
  apply Z.leb_le in Hcheck.
  assert (exists (s : bool) (n : Z),
             toFixed1 (reduction_percent originalSize compressedSize)
             = (if s then "-" else "")
               ++ string_of_Z (n / 10) ++ "." ++ string_of_Z (n mod 10)
             /\ sn = cond_Zopp s n) as (s & n & -> & ->).
  { destruct (reduction_percent originalSize compressedSize)
      as [s0|s0| |s0 m e]; try discriminate; cbn in Htenths.
    - exists false, 0. split; [reflexivity|now inversion Htenths].
    - exists s0, (Binary64.tenths m e).
      split; [reflexivity|now inversion Htenths]. }
  exists s, n. split; [reflexivity|].
  apply Qabs_Qle_condition.
  set (N := cond_Zopp s n) in *. clearbody N.
  assert (0 < inject_Z originalSize)%Q as HO
    by (change 0%Q with (inject_Z 0); now rewrite <- Zlt_Qlt).
  assert (inject_Z (2 * N * originalSize
                    - 2000 * (originalSize - compressedSize))
          <= inject_Z originalSize)%Q as Hup by (rewrite <- Zle_Qle; lia).
  assert (- inject_Z originalSize
          <= inject_Z (2 * N * originalSize
                       - 2000 * (originalSize - compressedSize)))%Q as Hlow
    by (rewrite <- inject_Z_opp, <- Zle_Qle; lia).
  unfold Z.sub in Hup, Hlow.
  rewrite !inject_Z_plus, !inject_Z_opp, !inject_Z_mult, !inject_Z_plus,
    !inject_Z_opp in Hup, Hlow.
  change (inject_Z 2) with 2%Q in *. change (inject_Z 2000) with 2000%Q in *.
  set (O := inject_Z originalSize) in *.
  set (C := inject_Z compressedSize) in *.
  set (X := inject_Z N) in *. clearbody O C X.
  assert (C / O * O == C)%Q as Hdiv by (field; lra).
  set (R := (C / O)%Q) in *. clearbody R.
  assert ((X / 10 - (1 - R) * 100) * (20 * O)
          == 2 * X * O - 2000 * (O - R * O))%Q as Hscaled by field.
  rewrite Hdiv in Hscaled.
  split; apply (Qmult_le_r _ _ (20 * O)); try lra; rewrite Hscaled; lra.
Qed.

(** The ratio of scenario E of the specification, and a ratio whose
    exact percentage, 63.75, is a tie between two tenths: in binary64
    29 / 80 is above 0.3625 and the percentage is 63.74999999999999. *)
Example reduction_scenario_E : reduction 50000 12000 = "76.0%".
Proof. vm_compute. reflexivity. Qed.

Example reduction_below_the_tie : reduction 80 29 = "63.7%".
Proof. vm_compute. reflexivity. Qed.

Example reduction_of_a_larger_result : reduction 80 100 = "-25.0%".
Proof. vm_compute. reflexivity. Qed.

(** C7: for every successful compression, the reported reduction is the
    binary64 number (1 - compressedSize / originalSize) * 100 written
    with one decimal and followed by a percent sign: the sign of a
    negative percentage, then the integer [n] nearest to ten times its
    absolute value (the larger one on a tie), written with its last digit
    after the point.  For a non-empty original of at most 100 bytes that
    the compression did not enlarge, [n / 10] is a tenth nearest to the
    exact percentage; where the exact percentage lies halfway between two
    tenths either neighbour is reported (63.7 for 80 bytes compressed to
    29, where it is 63.75).  With originalSize = 50000 and compressedSize
    = 12000 the reduction is 76.0. *)
Theorem reduction_is_rounded_to_one_decimal
    (rt : Runtime) (cfg : ApiConfig) (now : Z) (imageBlob : Blob)
    (w w' : World) (r : CompressionResult) :
  compressImage rt cfg now imageBlob w = (Ok r, w') ->
  compressed r = true ->
  let originalSize := blob_size imageBlob in
  let compressedSize := blob_size (blob r) in
  let percent :=
    SFmul 53 1024
      (SFsub 53 1024 (Binary64.of_Z 1)
         (SFdiv 53 1024 (Binary64.of_Z compressedSize)
                        (Binary64.of_Z originalSize)))
      (Binary64.of_Z 100) in
  (exists text : string,
      prop (details r) "reduction" = JStr (text ++ "%") /\
      match percent with
      | S754_finite s m e =>
          exists n : Z,
            (Binary64.value_of false m e * 10 - (1 # 2) < inject_Z n
             <= Binary64.value_of false m e * 10 + (1 # 2))%Q /\
            text = (if s then "-" else "")
                   ++ string_of_Z (n / 10) ++ "." ++ string_of_Z (n mod 10)
      | S754_zero _ => text = "0.0"
      | S754_infinity s => text = if s then "-Infinity" else "Infinity"
      | S754_nan => text = "NaN"
      end)
  /\ (0 < originalSize <= 100 -> compressedSize <= originalSize ->
      exists (s : bool) (n : Z),
        prop (details r) "reduction"
        = JStr (((if s then "-" else "")
                 ++ string_of_Z (n / 10) ++ "." ++ string_of_Z (n mod 10))
                ++ "%") /\
        (Qabs (inject_Z (cond_Zopp s n) / 10
               - (1 - inject_Z compressedSize / inject_Z originalSize) * 100)
         <= 1 # 20)%Q)
  /\ reduction 50000 12000 = "76.0%"
  /\ reduction 80 29 = "63.7%".
Proof.
  intros Hrun Hcompressed originalSize compressedSize percent.
  rewrite compressImage_run in Hrun.
  destruct (compress_workflow rt cfg now imageBlob w) as [[r0|e] w0] eqn:Hflow.
  2:{ inversion Hrun; subst. discriminate Hcompressed. }
  inversion Hrun; subst r0 w0. clear Hrun.
  destruct (compress_workflow_success _ _ _ _ _ _ _ Hflow)
    as (token & server & task & sf & cb & w1 & w2 & w3 & w4 &
        _ & _ & _ & _ & _ & ->).
  cbn [blob details] in *. rewrite lookup_reduction.
  split; [|split; [|split; vm_compute; reflexivity]].
  - exists (toFixed1 percent). split; [reflexivity|].
    destruct percent as [s|s| |s m e]; try reflexivity.
    exists (Binary64.tenths m e). split; [|reflexivity].
    apply tenths_nearest.
  - intros Ho Hc.
    assert (0 <= compressedSize) as Hc0
      by (unfold compressedSize, blob_size; lia).
    destruct (nearest_tenth_check_sound originalSize compressedSize
                ltac:(lia)
                (nearest_tenth_check_small originalSize compressedSize
                   Ho (conj Hc0 Hc)))
      as (s & n & Hred & Hnear).
    exists s, n. split; [|exact Hnear].
    f_equal. exact Hred.
Qed.

(** A full run with the ratio of scenario E: 100 bytes compressed to 24. *)
Lemma reduction_is_rounded_to_one_decimal_witness :
  exists r w',
    compressImage
      (scripted_runtime [token_reply; start_reply; upload_reply;
                         process_reply "TaskSuccess"; blob_reply (zeros 24)])
      configured 0 (zeros 100) empty_world = (Ok r, w') /\
    compressed r = true /\
    prop (details r) "reduction" = JStr "76.0%".
Proof.
  pose (rt := scripted_runtime
                [token_reply; start_reply; upload_reply;
                 process_reply "TaskSuccess"; blob_reply (zeros 24)]).
  fold rt.
  destruct (compressImage rt configured 0 (zeros 100) empty_world)
    as [res w'] eqn:Hrun.
  assert (exists r, res = Ok r /\ compressed r = true /\
                    blob r = zeros 24) as (r & -> & Hc & Hb).
  { vm_compute in Hrun. inversion Hrun; subst. eexists. split; [reflexivity|].
    split; reflexivity. }
  exists r, w'. split; [reflexivity|]. split; [exact Hc|].
  destruct (reduction_is_rounded_to_one_decimal rt configured 0 (zeros 100)
              empty_world w' r Hrun Hc)
    as (_ & Hexact & _).
  assert (0 < blob_size (zeros 100) <= 100) as Hsize
    by (vm_compute; split; [reflexivity|discriminate]).
  assert (blob_size (blob r) <= blob_size (zeros 100)) as Hsmaller
    by (rewrite Hb; vm_compute; discriminate).
  destruct (Hexact Hsize Hsmaller) as (s & n & Hprop & _).
  vm_compute in Hrun. inversion Hrun; subst. vm_compute. reflexivity.
Defined.

(** ** The file name *)

Lemma extension_by_format (icfg : ImageConfig) :
  extension icfg
  = match format icfg with
    | image_jpeg => "jpg"
    | image_png => "png"
    end.
Proof. unfold extension. now destruct (format icfg). Qed.

(** The handler tests the identifier for emptiness only. *)
Lemma capture_filename_nonempty
    (icfg : ImageConfig) (templateId : option string) (now : Z) :
  capture_filename icfg templateId now
  = spec_filename (fun id => negb (String.eqb id "")) icfg templateId now.
Proof.
  unfold capture_filename, spec_filename. rewrite extension_by_format.
  destruct templateId as [id|]; reflexivity.
Qed.

(** C8, as amended: for every capture, the file name is templateId + "."
    + extension when templateId is a non-empty string, taken as it is
    (the handler does not trim it; the popup does, before sending), and
    "thumbnail-" + currentEpochMs + "." + extension when it is null or
    empty; extension is "jpg" for image/jpeg and "png" for image/png. *)
Theorem capture_filename_by_nonempty_templateId
    (icfg : ImageConfig) (templateId : option string) (currentEpochMs : Z) :
  capture_filename icfg templateId currentEpochMs
  = let ext := match format icfg with
               | image_jpeg => "jpg"
               | image_png => "png"
               end in
    match templateId with
    | Some id =>
        if String.eqb id "" (* empty *)
        then "thumbnail-" ++ string_of_Z currentEpochMs ++ "." ++ ext
        else id ++ "." ++ ext
    | None => "thumbnail-" ++ string_of_Z currentEpochMs ++ "." ++ ext
    end.
Proof.
  rewrite capture_filename_nonempty. unfold spec_filename.
  destruct templateId as [id|]; [|reflexivity].
  now destruct (String.eqb id "").
Qed.

(** C8, as stated, fails on a blank identifier: under either reading of
    "non-empty trimmed string" the specification's name for the
    identifier " " is the thumbnail name, and the handler's is " .jpg". *)
Lemma capture_filename_of_blank_templateId :
  capture_filename imageConfig (Some " ") 1700000000000 = " .jpg" /\
  capture_filename imageConfig (Some " ") 1700000000000
  <> spec_filename nonempty_and_trimmed imageConfig (Some " ") 1700000000000 /\
  capture_filename imageConfig (Some " ") 1700000000000
  <> spec_filename nonempty_after_trim imageConfig (Some " ") 1700000000000.
Proof. repeat split; vm_compute; discriminate. Qed.

Example capture_filename_untrimmed :
  capture_filename imageConfig (Some " hero ") 1700000000000 = " hero .jpg".
Proof. reflexivity. Qed.

Example capture_filename_null :
  capture_filename imageConfig None 1700000000000
  = "thumbnail-1700000000000.jpg".
Proof. reflexivity. Qed.

Example capture_filename_png :
  capture_filename
    {| width := 560; height := 315; quality := 85 # 100; format := image_png |}
    (Some "hero") 1700000000000
  = "hero.png".
Proof. reflexivity. Qed.

(** What the popup sends is trimmed and not empty, so that on the path
    from the popup the specification's wording holds. *)
Lemma trim_start_head (s : string) :
  match trim_start s with
  | EmptyString => True
  | String c _ => is_space c = false
  end.
Proof.
  induction s as [|c s IH]; cbn; [exact I|].
  destruct (is_space c) eqn:E; [exact IH|exact E].
Qed.

Lemma trim_end_idempotent (s : string) : trim_end (trim_end s) = trim_end s.
Proof.
  induction s as [|c s IH]; [reflexivity|].
  cbn [trim_end]. destruct (trim_end s) as [|d s'] eqn:E.
  - destruct (is_space c) eqn:Ec; [reflexivity|].
    cbn. now rewrite Ec.
  - cbn [trim_end] in *. now rewrite IH.
Qed.

Lemma trim_end_head (c : ascii) (s : string) :
  is_space c = false ->
  exists s', trim_end (String c s) = String c s'.
Proof.
  intros Ec. cbn [trim_end]. destruct (trim_end s).
  - rewrite Ec. now eexists.
  - now eexists.
Qed.

Lemma trim_idempotent (s : string) : trim (trim s) = trim s.
Proof.
  unfold trim. pose proof (trim_start_head s) as Hhead.
  destruct (trim_start s) as [|c t]; [reflexivity|].
  destruct (trim_end_head c t Hhead) as [t' Et]. rewrite Et.
  cbn [trim_start]. rewrite Hhead, <- Et. apply trim_end_idempotent.
Qed.

Lemma capture_filename_from_popup
    (icfg : ImageConfig) (input id : string) (currentEpochMs : Z) :
  popup_templateId input = Some id ->
  nonempty_and_trimmed id = true /\
  capture_filename icfg (overlay_templateId (Some id)) currentEpochMs
  = spec_filename nonempty_and_trimmed icfg (Some id) currentEpochMs.
Proof.
  unfold popup_templateId, overlay_templateId, nonempty_and_trimmed.
  cbn [truthy]. destruct (String.eqb (trim input) "") eqn:E; [discriminate|].
  cbn [negb]. intros [= <-]. rewrite trim_idempotent, E, String.eqb_refl.
  split; [reflexivity|].
  rewrite capture_filename_nonempty. cbn [negb].
  unfold spec_filename. now rewrite trim_idempotent, E, String.eqb_refl.
Qed.

(** ** The result of a capture *)

(** C2 does not hold of the handler: for every capture that succeeds,
    whether compression succeeded or fell back, the object returned to the
    caller is { success, filename, imageDataUrl }.  It carries the final
    image (as a data URL) and the file name, but no compression outcome:
    the [compression] field that the content script reads from the
    response is undefined, and the download dialog never shows a
    compression status. *)
Theorem capture_result_lacks_compression
    (rt : Runtime) (br : Browser) (cfg : ApiConfig) (icfg : ImageConfig)
    (nowAuth nowName : Z) (message : CaptureMessage) (w : World) :
  match handleScreenshotCapture rt br cfg icfg nowAuth nowName message w with
  | (Ok result, _) =>
      prop result "success" = JBool true /\
      prop result "filename"
      = JStr (capture_filename icfg (templateId message) nowName) /\
      (exists url, prop result "imageDataUrl" = JStr url) /\
      prop result "compression" = JUndefined /\
      exists d,
        handleCapture_downloadData rt result = Ok d /\
        dl_compression d = JUndefined /\
        DownloadUI_shows_compression d = false
  | (Throw _, _) => True
  end.
Proof.
  unfold handleScreenshotCapture. unfold_monad.
  repeat (run_step; unfold_monad); try exact I.
  match goal with
  | H : compressImage _ _ _ _ _ = (Throw _, _) |- _ =>
      rewrite compressImage_run in H; repeat run_step
  | _ => idtac
  end.
  unfold handleCapture_downloadData, prop.
  repeat (rewrite lookup_insert_ne by discriminate).
  rewrite lookup_insert_eq.
  repeat split.
  - now eexists.
  - eexists. repeat split.
Qed.

(** Two captures on the same page: one whose compression succeeds and one
    whose compression falls back.  Neither response says which. *)
Example capture_with_compression :
  fst (captureScreenshot_response
         (scripted_runtime [token_reply; start_reply; upload_reply;
                            process_reply "TaskSuccess"; blob_reply (zeros 2)])
         scripted_browser configured imageConfig 0 1700000000000
         (Some 7) (mkBounds 100 100 320 180) (Some "hero") empty_world)
  = JObj (<[ "success" := JBool true ]>
         (<[ "filename" := JStr "hero.jpg" ]>
         {[ "imageDataUrl" := JStr "data:image/jpeg;base64,AAAAAA==" ]})).
Proof. vm_compute. reflexivity. Qed.

Example capture_without_compression :
  fst (captureScreenshot_response
         (scripted_runtime []) scripted_browser unconfigured imageConfig
         0 1700000000000
         (Some 7) (mkBounds 100 100 320 180) (Some "hero") empty_world)
  = JObj (<[ "success" := JBool true ]>
         (<[ "filename" := JStr "hero.jpg" ]>
         {[ "imageDataUrl" := JStr "data:image/jpeg;base64,AAAAAA==" ]})).
Proof. vm_compute. reflexivity. Qed.

(** A capture fails only before compression: here the canvas fails. *)
Example capture_fails_on_encoding :
  fst (captureScreenshot_response
         (scripted_runtime [])
         {| captureVisibleTab := captureVisibleTab scripted_browser;
            tabs_get := tabs_get scripted_browser;
            executeScript := executeScript scripted_browser;
            createImageBitmap := createImageBitmap scripted_browser;
            draw_and_convertToBlob :=
              fun _ _ _ _ _ _ =>
                Throw (JsError "Failed to get crop canvas context");
            btoa := btoa scripted_browser |}
         configured imageConfig 0 1700000000000
         (Some 7) (mkBounds 100 100 320 180) (Some "hero") empty_world)
  = JObj {[ "error" := JStr "Failed to get crop canvas context" ]}.
Proof. vm_compute. reflexivity. Qed.

(** * Further properties of the service worker *)

(** ** What each step does to the state *)

Lemma start_task_world
    (rt : Runtime) (cfg : ApiConfig) (t : jsval) (w : World) :
  snd (start_task rt cfg t w)
  = {| cachedToken := cachedToken w;
       requests := requests w ++ [start_request rt cfg t] |}.
Proof.
  unfold start_task, start_failure. unfold_monad.
  repeat (run_step; unfold_monad); reflexivity.
Qed.

Lemma upload_file_world
    (rt : Runtime) (t server task : jsval) (imageBlob : Blob) (w : World) :
  snd (upload_file rt t server task imageBlob w)
  = {| cachedToken := cachedToken w;
       requests := requests w ++ [upload_request rt t server task imageBlob] |}.
Proof.
  unfold upload_file. unfold_monad.
  repeat (run_step; unfold_monad); reflexivity.
Qed.

Lemma process_file_world
    (rt : Runtime) (cfg : ApiConfig) (t server task sf : jsval) (w : World) :
  snd (process_file rt cfg t server task sf w)
  = {| cachedToken := cachedToken w;
       requests := requests w ++ [process_request rt cfg t server task sf] |}.
Proof.
  unfold process_file. unfold_monad.
  repeat (run_step; unfold_monad); reflexivity.
Qed.

Lemma download_file_world
    (rt : Runtime) (t server task : jsval) (w : World) :
  snd (download_file rt t server task w)
  = {| cachedToken := cachedToken w;
       requests := requests w ++ [download_request rt t server task] |}.
Proof.
  unfold download_file. unfold_monad.
  repeat (run_step; unfold_monad); reflexivity.
Qed.

(** getAuthToken issues the authentication request or nothing, and
    nothing when the cache is valid. *)
Lemma getAuthToken_requests
    (rt : Runtime) (cfg : ApiConfig) (now : Z) (w : World) :
  exists issued,
    requests (snd (getAuthToken rt cfg now w)) = (requests w ++ issued)%list /\
    (length issued <= if cache_valid w now then 0 else 1)%nat.
Proof.
  destruct (truthy (JStr (publicKey cfg))) eqn:Hkey.
  - destruct (cache_valid w now) eqn:Hvalid.
    + unfold cache_valid in Hvalid.
      destruct (cachedToken w) as [c|] eqn:Ec; [|discriminate].
      rewrite (getAuthToken_cache_hit rt cfg now w c Hkey Ec) by lia.
      exists []. split; [now rewrite app_nil_r|]. cbn. lia.
    + rewrite (getAuthToken_cache_miss rt cfg now w Hkey Hvalid).
      destruct (request_new_token_run rt cfg now w) as (r & w1 & -> & Hreq & _).
      exists [auth_request cfg]. split; [exact Hreq|]. cbn. lia.
  - unfold getAuthToken. rewrite Hkey. cbn.
    exists []. split; [now rewrite app_nil_r|]. destruct (cache_valid w now); cbn; lia.
Qed.

(** The workflow after authentication, as one run. *)
Lemma compress_workflow_world
    (rt : Runtime) (cfg : ApiConfig) (now : Z) (imageBlob : Blob) (w : World) :
  exists issued,
    requests (snd (compress_workflow rt cfg now imageBlob w))
    = (requests (snd (getAuthToken rt cfg now w)) ++ issued)%list /\
    (length issued <= 4)%nat /\
    cachedToken (snd (compress_workflow rt cfg now imageBlob w))
    = cachedToken (snd (getAuthToken rt cfg now w)).
Proof.
  unfold compress_workflow, bind, ret.
  destruct (getAuthToken rt cfg now w) as [[t|e] w1]; cbn [snd];
    [|exists []; rewrite app_nil_r; cbn; repeat split; lia].
  pose proof (start_task_world rt cfg t w1) as H2.
  destruct (start_task rt cfg t w1) as [[[server task]|e] w2];
    cbn [snd] in *; subst w2;
    [|eexists [_]; cbn; repeat split; lia].
  pose proof (upload_file_world rt t server task imageBlob
                {| cachedToken := cachedToken w1;
                   requests := requests w1 ++ [start_request rt cfg t] |}) as H3.
  destruct (upload_file rt t server task imageBlob _) as [[sf|e] w3];
    cbn [snd cachedToken requests] in *; subst w3;
    [|eexists [_; _]; cbn; rewrite <- app_assoc; repeat split; lia].
  match goal with
  | |- context [process_file rt cfg t server task sf ?w0] =>
      pose proof (process_file_world rt cfg t server task sf w0) as H4;
      destruct (process_file rt cfg t server task sf w0) as [[[]|e] w4]
  end;
    cbn [snd cachedToken requests] in *; subst w4;
    [|eexists [_; _; _]; cbn; rewrite <- !app_assoc; repeat split; lia].
  match goal with
  | |- context [download_file rt t server task ?w0] =>
      pose proof (download_file_world rt t server task w0) as H5;
      destruct (download_file rt t server task w0) as [[cb|e] w5]
  end;
    cbn [snd cachedToken requests] in *; subst w5;
    eexists [_; _; _; _]; cbn; rewrite <- !app_assoc; repeat split; lia.
Qed.

(** ** Extras on compressImage *)

(** X1: with no public key configured, compressImage sends nothing: it
    returns the input image, uncompressed, with the configuration
    message, and leaves the cache and the request log as they were. *)
Theorem compressImage_without_key
    (rt : Runtime) (cfg : ApiConfig) (now : Z) (imageBlob : Blob) (w : World) :
  publicKey cfg = "" ->
  compressImage rt cfg now imageBlob w
  = (Ok (fallback_result imageBlob config_error_message), w).
Proof.
  intros Hkey. rewrite compressImage_run.
  unfold compress_workflow, bind, getAuthToken. rewrite Hkey. reflexivity.
Qed.

Lemma compressImage_without_key_witness :
  compressImage (scripted_runtime [token_reply; start_reply]) unconfigured 5000
    (zeros 4) (cached_world "tok-0" 10000)
  = (Ok (fallback_result (zeros 4) config_error_message),
     cached_world "tok-0" 10000).
Proof.
  apply (compressImage_without_key (scripted_runtime [token_reply; start_reply])
           unconfigured 5000 (zeros 4) (cached_world "tok-0" 10000)).
  reflexivity.
Defined.

(** X2: whatever the network answers, one call of compressImage only
    appends to the request log, at most five requests, and at most four
    when the cached token is still valid: no step is retried. *)
Theorem compressImage_issues_at_most_five_requests
    (rt : Runtime) (cfg : ApiConfig) (now : Z) (imageBlob : Blob) (w : World) :
  exists issued,
    requests (snd (compressImage rt cfg now imageBlob w))
    = (requests w ++ issued)%list /\
    (length issued <= if cache_valid w now then 4 else 5)%nat.
Proof.
  destruct (compress_workflow_world rt cfg now imageBlob w)
    as (steps & Hsteps & Hlen & _).
  destruct (getAuthToken_requests rt cfg now w) as (auth & Hauth & Hlen').
  exists (auth ++ steps)%list. split.
  - rewrite compressImage_run.
    destruct (compress_workflow rt cfg now imageBlob w) as [[r|e] w'];
      cbn [snd] in *; rewrite Hsteps, Hauth; now rewrite <- app_assoc.
  - rewrite length_app. destruct (cache_valid w now); lia.
Qed.

(** X3: a compression that succeeds has issued, after authentication,
    exactly the start, upload, process and download requests, in this
    order.  All four carry the token that getAuthToken returned; the
    upload, process and download requests go to the [server] and name the
    [task] of the answer to the start request; the upload carries the
    input image itself and the process request names the
    [server_filename] of the answer to the upload.  The cache is as
    getAuthToken left it. *)
Theorem successful_compression_trace
    (rt : Runtime) (cfg : ApiConfig) (now : Z) (imageBlob : Blob)
    (w w' : World) (r : CompressionResult) :
  compressImage rt cfg now imageBlob w = (Ok r, w') ->
  compressed r = true ->
  exists t w1 startData uploadData,
    getAuthToken rt cfg now w = (Ok t, w1) /\
    answered rt (length (requests w1)) (start_request rt cfg t) startData /\
    let server := prop startData "server" in
    let task := prop startData "task" in
    answered rt (S (length (requests w1)))
      (upload_request rt t server task imageBlob) uploadData /\
    requests w'
    = (requests w1
       ++ [start_request rt cfg t;
           upload_request rt t server task imageBlob;
           process_request rt cfg t server task
             (prop uploadData "server_filename");
           download_request rt t server task])%list /\
    cachedToken w' = cachedToken w1.
Proof.
  intros Hrun Hc. rewrite compressImage_run in Hrun.
  destruct (compress_workflow rt cfg now imageBlob w) as [[r0|e] w0] eqn:Hflow.
  2:{ inversion Hrun; subst. discriminate Hc. }
  inversion Hrun; subst r0 w0; clear Hrun.
  destruct (compress_workflow_success _ _ _ _ _ _ _ Hflow)
    as (t & server & task & sf & cb & w1 & w2 & w3 & w4 &
        H1 & H2 & H3 & H4 & H5 & _).
  pose proof (process_file_world rt cfg t server task sf w3) as E4.
  rewrite H4 in E4.
  pose proof (download_file_world rt t server task w4) as E5.
  rewrite H5 in E5. cbn [snd] in *.
  destruct (start_task_success _ _ _ _ _ _ _ H2)
    as (r2 & d2 & F2 & O2 & J2 & N2 & -> & -> & _ & _ & ->).
  destruct (upload_file_success _ _ _ _ _ _ _ _ H3)
    as (r3 & d3 & F3 & O3 & J3 & N3 & -> & _ & ->).
  cbn [requests] in F3. rewrite length_app, Nat.add_1_r in F3.
  exists t, w1, d2, d3. split; [exact H1|].
  split; [exists r2; repeat split; assumption|].
  cbv zeta. split; [exists r3; repeat split; assumption|].
  subst w' w4. cbn [requests cachedToken].
  rewrite <- !app_assoc. split; reflexivity.
Qed.

Lemma successful_compression_trace_witness :
  exists r w',
    compressImage
      (scripted_runtime [token_reply; start_reply; upload_reply;
                         process_reply "TaskSuccess"; blob_reply (zeros 2)])
      configured 0 (zeros 4) empty_world = (Ok r, w') /\
    compressed r = true /\ length (requests w') = 5%nat.
Proof.
  pose (rt := scripted_runtime
                [token_reply; start_reply; upload_reply;
                 process_reply "TaskSuccess"; blob_reply (zeros 2)]).
  fold rt.
  destruct (compressImage rt configured 0 (zeros 4) empty_world)
    as [res w'] eqn:Hrun.
  assert (exists r, res = Ok r /\ compressed r = true) as (r & -> & Hc).
  { vm_compute in Hrun. inversion Hrun; subst. eexists.
    split; reflexivity. }
  exists r, w'. split; [reflexivity|]. split; [exact Hc|].
  destruct (successful_compression_trace rt configured 0 (zeros 4)
              empty_world w' r Hrun Hc)
    as (t & w1 & startData & uploadData & H1 & _ & _ & Hreq & _).
  rewrite Hreq, length_app. vm_compute in H1. inversion H1; subst.
  reflexivity.
Defined.

(** X4: steps 2 to 5 never touch the credential cache: after compressImage,
    successful or not, the cache is what getAuthToken left, so a token
    obtained by a run that failed later is kept for the next call. *)
Theorem compressImage_cache_is_getAuthToken_cache
    (rt : Runtime) (cfg : ApiConfig) (now : Z) (imageBlob : Blob) (w : World) :
  cachedToken (snd (compressImage rt cfg now imageBlob w))
  = cachedToken (snd (getAuthToken rt cfg now w)).
Proof.
  destruct (compress_workflow_world rt cfg now imageBlob w)
    as (steps & _ & _ & Hcache).
  rewrite compressImage_run.
  destruct (compress_workflow rt cfg now imageBlob w) as [[r|e] w'];
    exact Hcache.
Qed.

(** getAuthToken keeps the cache truthy and returns a truthy token. *)
Lemma getAuthToken_truthy
    (rt : Runtime) (cfg : ApiConfig) (now : Z) (w : World) :
  cache_truthy w ->
  cache_truthy (snd (getAuthToken rt cfg now w)) /\
  forall t w1, getAuthToken rt cfg now w = (Ok t, w1) -> truthy t = true.
Proof.
  intros Hw.
  destruct (getAuthToken rt cfg now w) as [[t|e] w1] eqn:Hrun; cbn [snd].
  - destruct (getAuthToken_success _ _ _ _ _ _ Hrun)
      as [_ [(c & Hc & _ & -> & ->)|[_ Hnew]]].
    + split; [exact Hw|]. intros t' w1' [= <- <-]. exact (Hw c Hc).
    + destruct (request_new_token_success _ _ _ _ _ _ Hnew)
        as (resp & data & _ & _ & _ & _ & _ & Ht & ->).
      split.
      * intros c [= <-]. exact Ht.
      * intros t' w1' [= <- <-]. exact Ht.
  - split; [|discriminate].
    intros c Hc. apply Hw.
    destruct (truthy (JStr (publicKey cfg))) eqn:Hkey.
    + destruct (cache_valid w now) eqn:Hvalid.
      * unfold cache_valid in Hvalid.
        destruct (cachedToken w) as [c0|] eqn:Ec; [|discriminate].
        rewrite (getAuthToken_cache_hit rt cfg now w c0 Hkey Ec) in Hrun by lia.
        discriminate Hrun.
      * rewrite (getAuthToken_cache_miss rt cfg now w Hkey Hvalid) in Hrun.
        destruct (request_new_token_run rt cfg now w)
          as (r & w2 & Hreq & _ & Hr).
        rewrite Hreq in Hrun. inversion Hrun; subst. congruence.
    + unfold getAuthToken in Hrun. rewrite Hkey in Hrun.
      inversion Hrun; subst. exact Hc.
Qed.

(** X5: the cache never holds a falsy token.  From a state whose cached
    token, if any, is truthy (the initial state has none), compressImage
    leads to such a state again, and the token that getAuthToken returns
    for the Authorization headers is truthy: never undefined, null or
    the empty string. *)
Theorem cached_token_stays_truthy
    (rt : Runtime) (cfg : ApiConfig) (now : Z) (imageBlob : Blob) (w : World) :
  cache_truthy w ->
  cache_truthy (snd (compressImage rt cfg now imageBlob w)) /\
  forall t w1, getAuthToken rt cfg now w = (Ok t, w1) -> truthy t = true.
Proof.
  intros Hw. destruct (getAuthToken_truthy rt cfg now w Hw) as [Hcache Htok].
  split; [|exact Htok].
  destruct (compress_workflow_world rt cfg now imageBlob w)
    as (steps & _ & _ & Hsame).
  intros c Hc. apply Hcache. rewrite <- Hsame.
  rewrite compressImage_run in Hc.
  destruct (compress_workflow rt cfg now imageBlob w) as [[r|e] w'];
    exact Hc.
Qed.

Lemma cached_token_stays_truthy_witness :
  cache_truthy
    (snd (compressImage (scripted_runtime [token_reply]) configured 0
            (zeros 4) empty_world)).
Proof.
  apply (cached_token_stays_truthy (scripted_runtime [token_reply]) configured
           0 (zeros 4) empty_world).
  intros c Hc. discriminate Hc.
Defined.

Lemma append_empty_r (s : string) : s ++ "" = s.
Proof.
  induction s as [|c s IH]; [reflexivity|].
  change (String c s ++ "") with (String c (s ++ "")). now rewrite IH.
Qed.

(** X6: when the start request is answered with a status that is not ok
    and a body that is not JSON, the step throws "Start task failed
    (<status>): " followed by the body text, or by the status text when
    the body is empty; the start request is the only request issued. *)
Theorem start_task_failure_message
    (rt : Runtime) (cfg : ApiConfig) (t : jsval) (w : World)
    (response : Response) (errorText : string) :
  fetch_reply rt (length (requests w)) (start_request rt cfg t) = Ok response ->
  ok response = false ->
  res_text response = Ok errorText ->
  JSON_parse rt errorText = None ->
  start_task rt cfg t w
  = (Throw (JsError ("Start task failed (" ++ string_of_Z (status response)
                     ++ "): "
                     ++ (if String.eqb errorText "" then statusText response
                         else errorText))),
     {| cachedToken := cachedToken w;
        requests := requests w ++ [start_request rt cfg t] |}).
Proof.
  intros Hreply Hok Htext Hparse.
  unfold start_task, start_failure. unfold_monad.
  rewrite Hreply, Hok. cbn [negb]. rewrite Htext, Hparse.
  unfold js_or, opt_prop, ToString. cbn [default nullish truthy prop].
  destruct (String.eqb errorText ""); cbn [negb]; unfold_monad;
    rewrite append_empty_r; reflexivity.
Qed.

Lemma start_task_failure_message_witness :
  start_task (scripted_runtime [status_reply 401 "Unauthorized"]) configured
    (JStr "tok-1") empty_world
  = (Throw (JsError "Start task failed (401): Unauthorized"),
     {| cachedToken := None;
        requests :=
          [start_request (scripted_runtime [status_reply 401 "Unauthorized"])
             configured (JStr "tok-1")] |}).
Proof.
  apply (start_task_failure_message
           (scripted_runtime [status_reply 401 "Unauthorized"]) configured
           (JStr "tok-1") empty_world
           {| ok := false; status := 401; statusText := "Unauthorized";
              res_headers := []; res_text := Ok "";
              res_json := Throw (JsError "Unexpected end of JSON input");
              res_blob := Ok [] |} "");
    reflexivity.
Defined.

(** X7: when the body of such a reply is a JSON object whose [error] has
    a non-empty string [message], this message is reported instead of the
    body text, followed by "Details: " and the rendering of
    [error.param] when that is truthy. *)
Theorem start_task_failure_structured
    (rt : Runtime) (cfg : ApiConfig) (t : jsval) (w : World)
    (response : Response) (errorText message : string)
    (errorJson error : gmap string jsval) :
  fetch_reply rt (length (requests w)) (start_request rt cfg t) = Ok response ->
  ok response = false ->
  res_text response = Ok errorText ->
  JSON_parse rt errorText = Some (JObj errorJson) ->
  errorJson !! "error" = Some (JObj error) ->
  error !! "message" = Some (JStr message) ->
  message <> "" ->
  fst (start_task rt cfg t w)
  = Throw (JsError
      ("Start task failed (" ++ string_of_Z (status response) ++ "): "
       ++ message
       ++ match error !! "param" with
          | Some param =>
              if truthy param && truthy (JStr (JSON_stringify rt param))
              then newline ++ "Details: " ++ JSON_stringify rt param
              else ""
          | None => ""
          end)).
Proof.
  intros Hreply Hok Htext Hparse Herror Hmessage Hne.
  unfold start_task, start_failure. unfold_monad.
  rewrite Hreply, Hok. cbn [negb]. rewrite Htext, Hparse.
  unfold js_or, opt_prop, ToString. cbn [from_option id nullish prop].
  rewrite Herror. cbn [from_option id nullish prop]. rewrite Hmessage.
  assert (String.eqb message "" = false) as Hm by now apply String.eqb_neq.
  cbn [from_option id truthy]. repeat (rewrite Hm; cbn [negb truthy]).
  destruct (error !! "param") as [param|]; cbn [from_option id truthy].
  - destruct (truthy param); cbn [andb negb];
      change (String.eqb "" "") with true; cbn [negb]; unfold_monad;
      [|now rewrite append_empty_r].
    destruct (String.eqb (JSON_stringify rt param) ""); cbn [negb fst];
      [now rewrite append_empty_r|reflexivity].
  - change (String.eqb "" "") with true. cbn [negb]. unfold_monad.
    now rewrite append_empty_r.
Qed.

Lemma start_task_failure_structured_witness :
  fst (start_task structured_error_runtime configured (JStr "tok-1")
         empty_world)
  = Throw (JsError "Start task failed (400): Bad tool").
Proof.
  pose proof (start_task_failure_structured structured_error_runtime
                configured (JStr "tok-1") empty_world
                structured_error_response "{...}" "Bad tool"
                {[ "error" := JObj {[ "message" := JStr "Bad tool" ]} ]}
                {[ "message" := JStr "Bad tool" ]}
                eq_refl eq_refl eq_refl eq_refl eq_refl eq_refl
                ltac:(discriminate)) as H.
  vm_compute in H. vm_compute. exact H.
Defined.

(** ** Extras on the capture handler *)

(** The handler up to the compression: what it needs to go on. *)
Lemma handleScreenshotCapture_after_image
    (rt : Runtime) (br : Browser) (cfg : ApiConfig) (icfg : ImageConfig)
    (nowAuth nowName : Z) (message : CaptureMessage) (w : World)
    (dataUrl : string) (tab : Tab) (resizedBlob : Blob) :
  captureVisibleTab br = Ok dataUrl ->
  dataUrl <> "" ->
  tabs_get br (tabId message) = Ok tab ->
  processImage br icfg dataUrl (bounds message) (width icfg) (height icfg)
    (Some tab) = Ok resizedBlob ->
  handleScreenshotCapture rt br cfg icfg nowAuth nowName message w
  = match compressImage rt cfg nowAuth resizedBlob w with
    | (Ok compressionResult, w') =>
        (Ok (JObj (<[ "success" := JBool true ]>
                  (<[ "filename" :=
                        JStr (capture_filename icfg (templateId message)
                                nowName) ]>
                  {[ "imageDataUrl" :=
                       JStr ("data:" ++ format_string (format icfg)
                             ++ ";base64,"
                             ++ btoa br (blob compressionResult)) ]}))),
         w')
    | (Throw e, w') => (Throw e, w')
    end.
Proof.
  intros Hshot Hne Htab Himage.
  unfold handleScreenshotCapture. unfold_monad.
  rewrite Hshot. cbn [truthy].
  apply String.eqb_neq in Hne. rewrite Hne. cbn [negb].
  rewrite Htab, Himage. reflexivity.
Qed.

(** X8: compression is best effort.  Once the screenshot is taken, the
    tab found and the image cropped and resized, the capture returns a
    result whatever the network does: its data URL encodes the Blob that
    compressImage returned, which is the resized image itself unless the
    compression succeeded. *)
Theorem capture_survives_compression_failure
    (rt : Runtime) (br : Browser) (cfg : ApiConfig) (icfg : ImageConfig)
    (nowAuth nowName : Z) (message : CaptureMessage) (w : World)
    (dataUrl : string) (tab : Tab) (resizedBlob : Blob) :
  captureVisibleTab br = Ok dataUrl ->
  dataUrl <> "" ->
  tabs_get br (tabId message) = Ok tab ->
  processImage br icfg dataUrl (bounds message) (width icfg) (height icfg)
    (Some tab) = Ok resizedBlob ->
  exists compressionResult result w',
    compressImage rt cfg nowAuth resizedBlob w = (Ok compressionResult, w') /\
    handleScreenshotCapture rt br cfg icfg nowAuth nowName message w
    = (Ok result, w') /\
    prop result "imageDataUrl"
    = JStr ("data:" ++ format_string (format icfg) ++ ";base64,"
            ++ btoa br (blob compressionResult)) /\
    (compressed compressionResult = true \/
     blob compressionResult = resizedBlob).
Proof.
  intros Hshot Hne Htab Himage.
  rewrite (handleScreenshotCapture_after_image rt br cfg icfg nowAuth nowName
             message w dataUrl tab resizedBlob Hshot Hne Htab Himage).
  rewrite compressImage_run.
  destruct (compress_workflow rt cfg nowAuth resizedBlob w)
    as [[r|e] w'] eqn:Hflow.
  - destruct (compress_workflow_success _ _ _ _ _ _ _ Hflow)
      as (t & server & task & sf & cb & w1 & w2 & w3 & w4 &
          _ & _ & _ & _ & _ & ->).
    eexists _, _, w'. split; [reflexivity|]. split; [reflexivity|].
    split; [|left; reflexivity].
    unfold prop. rewrite !lookup_insert_ne by discriminate.
    now rewrite lookup_singleton_eq.
  - eexists _, _, w'. split; [reflexivity|]. split; [reflexivity|].
    split; [|right; reflexivity].
    unfold prop. rewrite !lookup_insert_ne by discriminate.
    now rewrite lookup_singleton_eq.
Qed.

Lemma capture_survives_compression_failure_witness :
  exists result w',
    handleScreenshotCapture (scripted_runtime []) scripted_browser configured
      imageConfig 0 1700000000000 (capture_message (Some "hero")) empty_world
    = (Ok result, w') /\
    prop result "imageDataUrl" = JStr "data:image/jpeg;base64,AAAAAA==".
Proof.
  destruct (capture_survives_compression_failure (scripted_runtime [])
              scripted_browser configured imageConfig 0 1700000000000
              (capture_message (Some "hero")) empty_world
              "data:image/png;base64,iVBORw0KGgo=" {| tab_id := 7 |} (zeros 4)
              eq_refl ltac:(discriminate) eq_refl eq_refl)
    as (cr & result & w' & _ & Hrun & Hurl & _).
  exists result, w'. split; [exact Hrun|]. exact Hurl.
Defined.

(** X9: a capture fails only before the compression starts: when the
    handler throws, nothing has been requested and the cache is as it
    was, and the error is that of the screenshot (or its being empty), of
    the tab lookup or of processImage. *)
Theorem capture_failure_is_before_compression
    (rt : Runtime) (br : Browser) (cfg : ApiConfig) (icfg : ImageConfig)
    (nowAuth nowName : Z) (message : CaptureMessage) (w w' : World)
    (e : thrown) :
  handleScreenshotCapture rt br cfg icfg nowAuth nowName message w
  = (Throw e, w') ->
  w' = w /\
  (captureVisibleTab br = Throw e \/
   (captureVisibleTab br = Ok "" /\
    e = JsError "Failed to capture screenshot") \/
   exists dataUrl,
     captureVisibleTab br = Ok dataUrl /\
     (tabs_get br (tabId message) = Throw e \/
      exists tab,
        tabs_get br (tabId message) = Ok tab /\
        processImage br icfg dataUrl (bounds message) (width icfg)
          (height icfg) (Some tab) = Throw e)).
Proof.
  unfold handleScreenshotCapture. unfold_monad. intros Hrun.
  destruct (captureVisibleTab br) as [dataUrl|e0] eqn:Hshot.
  2:{ inversion Hrun; subst. split; [reflexivity|]. now left. }
  cbn [truthy] in Hrun.
  destruct (String.eqb dataUrl "") eqn:Hempty; cbn [negb] in Hrun.
  { apply String.eqb_eq in Hempty. inversion Hrun; subst.
    split; [reflexivity|]. right; left. now split. }
  destruct (tabs_get br (tabId message)) as [tab|e1] eqn:Htab.
  2:{ inversion Hrun; subst. split; [reflexivity|].
      right; right. exists dataUrl. split; [reflexivity|]. now left. }
  destruct (processImage br icfg dataUrl (bounds message) (width icfg)
              (height icfg) (Some tab)) as [resized|e2] eqn:Himage.
  2:{ inversion Hrun; subst. split; [reflexivity|].
      right; right. exists dataUrl. split; [reflexivity|].
      right. exists tab. now split. }
  rewrite compressImage_run in Hrun.
  destruct (compress_workflow rt cfg nowAuth resized w) as [[r|e3] w3];
    discriminate Hrun.
Qed.

Lemma capture_failure_is_before_compression_witness :
  handleScreenshotCapture (scripted_runtime [token_reply]) failing_canvas_browser
    configured imageConfig 0 1700000000000 (capture_message (Some "hero"))
    empty_world
  = (Throw (JsError "Failed to get crop canvas context"), empty_world).
Proof.
  destruct (handleScreenshotCapture (scripted_runtime [token_reply])
              failing_canvas_browser configured imageConfig 0 1700000000000
              (capture_message (Some "hero")) empty_world)
    as [res w'] eqn:Hrun.
  assert (res = Throw (JsError "Failed to get crop canvas context")) as ->.
  { vm_compute in Hrun. now inversion Hrun. }
  destruct (capture_failure_is_before_compression _ _ _ _ _ _ _ _ _ _ Hrun)
    as [-> _].
  reflexivity.
Defined.

(** * Properties of the content script and of the popup *)

(** X10: an error of the capture handler reaches the user.  When the
    handler throws an Error with a non-empty message, the listener
    answers { error: message }, and handleCapture in the content script
    stops processing, raises the alert "Failed to capture screenshot: "
    followed by the message, shows the selection overlay again and keeps
    the template identifier, so that the capture can be tried again. *)
Theorem capture_error_reaches_the_user
    (rt : Runtime) (br : Browser) (cfg : ApiConfig) (icfg : ImageConfig)
    (nowAuth nowName tab : Z) (crop : Bounds) (ident : option string)
    (w w' : World) (message : string) (s : ContentState) :
  tab <> 0 ->
  message <> "" ->
  handleScreenshotCapture rt br cfg icfg nowAuth nowName
    {| tabId := tab; bounds := crop; templateId := ident |} w
  = (Throw (JsError message), w') ->
  let response :=
    fst (captureScreenshot_response rt br cfg icfg nowAuth nowName
           (Some tab) crop ident w) in
  response = JObj {[ "error" := JStr message ]} /\
  fst (handleCapture rt (Ok response) s)
  = {| overlay_show := true;
       overlay_id := overlay_id s;
       showOverlay := true;
       c_templateId := overlay_id s;
       isProcessing := false;
       downloadData := downloadData s;
       alerts := alerts s ++ ["Failed to capture screenshot: " ++ message] |}.
Proof.
  intros Htab Hmsg Hrun response. subst response.
  unfold captureScreenshot_response.
  apply Z.eqb_neq in Htab. rewrite Htab, Hrun. cbn [fst].
  split; [reflexivity|].
  unfold handleCapture, handleCapture_downloadData, prop.
  cbn [nullish]. rewrite lookup_singleton_eq. cbn [from_option id truthy].
  apply String.eqb_neq in Hmsg. rewrite Hmsg. reflexivity.
Qed.

Lemma capture_error_reaches_the_user_witness :
  alerts
    (fst (handleCapture (scripted_runtime [])
            (Ok (fst (captureScreenshot_response (scripted_runtime [])
                        failing_canvas_browser configured imageConfig 0
                        1700000000000 (Some 7) (mkBounds 100 100 320 180)
                        (Some "hero") empty_world)))
            selecting_state))
  = ["Failed to capture screenshot: Failed to get crop canvas context"].
Proof.
  destruct (capture_error_reaches_the_user (scripted_runtime [])
              failing_canvas_browser configured imageConfig 0 1700000000000 7
              (mkBounds 100 100 320 180) (Some "hero") empty_world empty_world
              "Failed to get crop canvas context" selecting_state
              ltac:(discriminate) ltac:(discriminate) eq_refl)
    as [_ Hstate].
  rewrite Hstate. reflexivity.
Defined.

(** X11: handleCapture never leaves the page on the loading view.
    Whatever the background answers (a result, an error, nothing, or a
    rejected promise), afterwards processing is off and the stored
    template identifier is unchanged, and either the download dialog is
    what is rendered, with the overlay hidden and no alert, or the state
    is back at the selection overlay with exactly one more alert. *)
Theorem handleCapture_ends_processing
    (rt : Runtime) (sendMessage : Result jsval) (s : ContentState) :
  let s' := fst (handleCapture rt sendMessage s) in
  isProcessing s' = false /\
  overlay_id s' = overlay_id s /\
  ((exists d,
       downloadData s' = Some d /\ render s' = ViewDownload d /\
       overlay_show s' = false /\ alerts s' = alerts s)
   \/
   (downloadData s' = downloadData s /\
    overlay_show s' = true /\ showOverlay s' = true /\
    c_templateId s' = overlay_id s /\
    exists alert, alerts s' = (alerts s ++ [alert])%list)).
Proof.
  unfold handleCapture.
  destruct sendMessage as [response|e]; cbn zeta.
  - destruct (nullish response).
    + cbn. repeat split. right. repeat split. now eexists.
    + destruct (handleCapture_downloadData rt response) as [d|e]; cbn.
      * repeat split. left. exists d. repeat split.
      * repeat split. right. repeat split. now eexists.
  - cbn. repeat split. right. repeat split. now eexists.
Qed.

(** X12: cancelling, or closing the download dialog, forgets the
    template identifier and renders nothing; a later
    showSelectionOverlay message brings the selection overlay back, and
    the capture that follows sends the identifier of that message, or
    null when it had none or an empty one. *)
Theorem overlay_restarts_after_cancel
    (rt : Runtime) (sendMessage : Result jsval) (s : ContentState)
    (message_templateId : option string) :
  let closed := handleCloseDownload s in
  let cancelled := handleCancel s in
  let reopened :=
    fst (fst (content_onMessage "showSelectionOverlay" message_templateId
                cancelled)) in
  overlay_id closed = None /\ downloadData closed = None /\
  (isProcessing s = false -> render closed = ViewNothing) /\
  overlay_id cancelled = None /\ render cancelled = ViewNothing /\
  render reopened = ViewSelection /\
  snd (handleCapture rt sendMessage reopened)
  = overlay_templateId message_templateId.
Proof.
  cbn. repeat split; try reflexivity.
  - intros Hidle. unfold render. cbn. now rewrite Hidle.
  - unfold handleCapture.
    destruct sendMessage as [response|e];
      [destruct (nullish response);
       [|destruct (handleCapture_downloadData rt response)]|];
      reflexivity.
Qed.

(** What the try block of the popup sends. *)
Lemma start_capture_sent
    (rt : Runtime) (env : PopupEnv) (input : string) :
  let '(sent, outcome) := start_capture rt env input in
  (length sent <= 2)%nat /\
  Forall (fun id => id = trim input) sent /\
  (length sent = 2%nat -> exists e, sendMessage_first env = Throw e) /\
  match outcome with
  | Ok _ =>
      sendMessage_first env = Ok tt \/
      ((exists e, sendMessage_first env = Throw e) /\
       sendMessage_retry env = Ok tt)
  | Throw _ => True
  end.
Proof.
  unfold start_capture.
  repeat match goal with
         | |- context [match ?x with _ => _ end] =>
             lazymatch x with
             | context [match _ with _ => _ end] => fail
             | _ => destruct x eqn:?
             end
         end;
    cbn; repeat match goal with u : unit |- _ => destruct u end;
    repeat split; try lia; try discriminate;
    try exact I;
    repeat match goal with |- Forall _ _ => constructor end;
    try reflexivity;
    try (intros _; eexists; reflexivity);
    try (left; reflexivity);
    try (right; split; [eexists; reflexivity|reflexivity]).
Qed.

(** X13: the popup tries to send the showSelectionOverlay message at
    most twice, the second time only when the first attempt has failed,
    and always with the trimmed, non-empty identifier.  It closes only
    when an attempt has succeeded, the first one or, after the first has
    failed, the second, and then it shows no error; otherwise it stays
    open with an error message, and is no longer capturing once the
    identifier was accepted.  [po_sent] lists the attempts. *)
Theorem popup_sends_at_most_twice
    (rt : Runtime) (env : PopupEnv) (s : PopupState) :
  let o := handleCaptureThumbnail rt env s in
  (length (po_sent o) <= 2)%nat /\
  Forall (fun id => id = trim (p_templateId s) /\ id <> "") (po_sent o) /\
  (length (po_sent o) = 2%nat -> exists e, sendMessage_first env = Throw e) /\
  p_templateId (po_state o) = p_templateId s /\
  (if po_closed o
   then (sendMessage_first env = Ok tt \/
         ((exists e, sendMessage_first env = Throw e) /\
          sendMessage_retry env = Ok tt)) /\
        p_error (po_state o) = None /\
        p_isCapturing (po_state o) = true
   else (exists message, p_error (po_state o) = Some message) /\
        (trim (p_templateId s) = "" \/ p_isCapturing (po_state o) = false)).
Proof.
  unfold handleCaptureThumbnail. cbn [truthy].
  destruct (String.eqb (trim (p_templateId s)) "") eqn:Hblank; cbn [negb].
  - apply String.eqb_eq in Hblank. cbn.
    split; [lia|]. split; [constructor|]. split; [discriminate|].
    split; [reflexivity|]. split; [now eexists|now left].
  - apply String.eqb_neq in Hblank.
    pose proof (start_capture_sent rt env (p_templateId s)) as Hsent.
    destruct (start_capture rt env (p_templateId s)) as [sent [[]|err]];
      destruct Hsent as (Hlen & Hall & Htwice & Hdelivered); cbn.
    + repeat split; try assumption.
      eapply Forall_impl; [exact Hall|]. intros id ->. now split.
    + repeat split; try assumption.
      * eapply Forall_impl; [exact Hall|]. intros id ->. now split.
      * now eexists.
      * now right.
Qed.

(** A first attempt that fails and a second that succeeds: two attempts,
    and the popup closes. *)
Lemma popup_sends_at_most_twice_witness :
  po_closed (handleCaptureThumbnail (scripted_runtime []) local_page_env
               (typed_state " hero ")) = true /\
  exists e, sendMessage_first local_page_env = Throw e.
Proof.
  destruct (popup_sends_at_most_twice (scripted_runtime []) local_page_env
              (typed_state " hero ")) as (_ & _ & Htwice & _).
  split; [reflexivity|]. apply Htwice. reflexivity.
Defined.

(** The no-break space is trimmed like the space. *)
Example trim_no_break_space :
  trim (String (ascii_of_nat 160) "hero" ++ String (ascii_of_nat 160) "")
  = "hero"
  /\ trim (String (ascii_of_nat 160) "") = "".
Proof. split; reflexivity. Qed.

(** X14: on a chrome:, chrome-extension: or moz-extension: page the
    popup sends nothing and stays open with the message that screenshots
    cannot be captured there. *)
Theorem popup_refuses_browser_pages
    (rt : Runtime) (env : PopupEnv) (s : PopupState)
    (tab : ActiveTab) (id : Z) (url protocol : string) :
  trim (p_templateId s) <> "" ->
  tabs_query env = Ok (Some tab) ->
  at_id tab = Some id -> id <> 0 ->
  at_url tab = Some url -> url <> "" ->
  url_protocol env url = Ok protocol ->
  In protocol ["chrome:"; "chrome-extension:"; "moz-extension:"] ->
  handleCaptureThumbnail rt env s
  = {| po_state :=
         {| p_templateId := p_templateId s;
            p_isCapturing := false;
            p_error :=
              Some "Cannot capture screenshots on this page. Please navigate to a regular webpage." |};
       po_sent := [];
       po_closed := false |}.
Proof.
  intros Hid Htabs Htab Hid0 Hurl Hurl0 Hproto Hin.
  unfold handleCaptureThumbnail, start_capture. cbn [truthy].
  apply String.eqb_neq in Hid. rewrite Hid. cbn [negb].
  rewrite Htabs, Htab, Hurl.
  apply Z.eqb_neq in Hid0. apply String.eqb_neq in Hurl0.
  rewrite Hid0, Hurl0. cbn [orb]. rewrite Hproto.
  assert (restricted_protocol protocol = true) as ->.
  { cbn in Hin. destruct Hin as [<-|[<-|[<-|[]]]]; reflexivity. }
  reflexivity.
Qed.

Lemma popup_refuses_browser_pages_witness :
  po_sent (handleCaptureThumbnail (scripted_runtime []) browser_page_env
             (typed_state " hero ")) = [] /\
  po_closed (handleCaptureThumbnail (scripted_runtime []) browser_page_env
               (typed_state " hero ")) = false.
Proof.
  rewrite (popup_refuses_browser_pages (scripted_runtime []) browser_page_env
             (typed_state " hero ")
             {| at_id := Some 7; at_url := Some "chrome://extensions/" |}
             7 "chrome://extensions/" "chrome:"
             ltac:(vm_compute; discriminate) eq_refl eq_refl
             ltac:(discriminate) eq_refl ltac:(discriminate) eq_refl
             ltac:(left; reflexivity)).
  split; reflexivity.
Defined.

(** X15: the identifier typed in the popup names the file.  When the
    popup has sent a message, its identifier is the trimmed input; the
    content script that receives it keeps it and sends it with the
    capture request, and the service worker names the file with it,
    followed by a dot and the extension. *)
Theorem popup_identifier_names_the_file
    (rt : Runtime) (env : PopupEnv) (s : PopupState) (id : string)
    (rest : list string) (content : ContentState) (sendMessage : Result jsval)
    (icfg : ImageConfig) (now : Z) :
  po_sent (handleCaptureThumbnail rt env s) = id :: rest ->
  let shown :=
    fst (fst (content_onMessage "showSelectionOverlay" (Some id) content)) in
  id = trim (p_templateId s) /\
  snd (handleCapture rt sendMessage shown) = Some id /\
  capture_filename icfg (snd (handleCapture rt sendMessage shown)) now
  = trim (p_templateId s) ++ "." ++ extension icfg.
Proof.
  intros Hsent shown.
  assert (id = trim (p_templateId s) /\ String.eqb id "" = false) as [Hid Hne].
  { unfold handleCaptureThumbnail in Hsent. cbn [truthy] in Hsent.
    destruct (String.eqb (trim (p_templateId s)) "") eqn:Hblank;
      cbn [negb] in Hsent; [discriminate Hsent|].
    pose proof (start_capture_sent rt env (p_templateId s)) as Hall.
    destruct (start_capture rt env (p_templateId s)) as [sent [[]|err]];
      destruct Hall as (_ & Hall & _); cbn in Hsent; subst sent;
      inversion Hall; subst; now split. }
  assert (snd (handleCapture rt sendMessage shown) = Some id) as Hsend.
  { subst shown. unfold handleCapture, content_onMessage, overlay_templateId.
    cbn [String.eqb fst snd notify c_templateId overlay_id truthy].
    rewrite Hne.
    destruct sendMessage as [response|e];
      [destruct (nullish response);
       [|destruct (handleCapture_downloadData rt response)]|];
      reflexivity. }
  split; [exact Hid|]. split; [exact Hsend|].
  rewrite Hsend. unfold capture_filename. cbn [truthy]. rewrite Hne.
  cbn [negb]. now rewrite Hid.
Qed.

Lemma popup_identifier_names_the_file_witness :
  capture_filename imageConfig
    (snd (handleCapture (scripted_runtime []) (Throw JsOther)
            (fst (fst (content_onMessage "showSelectionOverlay" (Some "hero")
                         selecting_state)))))
    1700000000000
  = "hero.jpg".
Proof.
  destruct (popup_identifier_names_the_file (scripted_runtime [])
              local_page_env (typed_state " hero ") "hero" ["hero"]
              selecting_state (Throw JsOther) imageConfig 1700000000000
              eq_refl) as (_ & _ & Hname).
  rewrite Hname. reflexivity.
Defined.

(** * The binary string of the image *)

Lemma append_assoc_string (a b c : string) : (a ++ b) ++ c = a ++ (b ++ c).
Proof.
  induction a as [|x a IH]; [reflexivity|].
  change ((String x a ++ b) ++ c) with (String x ((a ++ b) ++ c)).
  now rewrite IH.
Qed.

Lemma fromCharCode_app (l1 l2 : list byte) :
  fromCharCode (l1 ++ l2) = fromCharCode l1 ++ fromCharCode l2.
Proof.
  unfold fromCharCode, string_of_list_byte.
  induction l1 as [|x l1 IH]; [reflexivity|].
  cbn [map app string_of_list_ascii].
  change (String ?c ?a ++ ?b) with (String c (a ++ b)). now rewrite <- IH.
Qed.

Lemma fromCharCode_length (l : list byte) :
  String.length (fromCharCode l) = length l.
Proof.
  unfold fromCharCode, string_of_list_byte.
  induction l as [|x l IH]; [reflexivity|]. cbn. now rewrite IH.
Qed.

(** With enough fuel the loop appends the characters of the rest of the
    array, for any positive chunk size. *)
Lemma binaryString_loop_spec (uint8Array : list byte) (size : nat) :
  (0 < size)%nat ->
  forall (fuel i : nat) (binaryString : string),
    (length uint8Array - i <= fuel)%nat ->
    binaryString_loop fuel uint8Array size i binaryString
    = binaryString ++ fromCharCode (skipn i uint8Array).
Proof.
  intros Hsize fuel.
  induction fuel as [|fuel IH]; intros i acc Hfuel.
  - cbn [binaryString_loop]. rewrite skipn_all2 by lia.
    symmetry. apply append_empty_r.
  - cbn [binaryString_loop].
    destruct (Nat.ltb_spec i (length uint8Array)) as [Hlt|Hge].
    + rewrite IH by lia. unfold subarray.
      rewrite append_assoc_string, <- fromCharCode_app.
      rewrite (Nat.add_comm i size), <- skipn_skipn.
      now rewrite firstn_skipn.
    + rewrite skipn_all2 by lia. symmetry. apply append_empty_r.
Qed.

(** X16: reading the final image 8192 bytes at a time loses and reorders
    nothing: the binary string handed to btoa has one character per byte
    of the Blob, in order, whatever the Blob's length (empty, shorter
    than a chunk, or not a multiple of the chunk size). *)
Theorem binaryString_is_the_whole_blob (finalBlob : Blob) :
  binaryString_of finalBlob = fromCharCode finalBlob /\
  String.length (binaryString_of finalBlob) = length finalBlob.
Proof.
  assert (binaryString_of finalBlob = fromCharCode finalBlob) as H.
  { unfold binaryString_of.
    rewrite binaryString_loop_spec; [reflexivity| |lia].
    unfold chunkSize. lia. }
  split; [exact H|]. rewrite H. apply fromCharCode_length.
Qed.

(** The loop with a chunk size of 2 on five bytes takes three rounds. *)
Example binaryString_loop_small :
  binaryString_loop 3 (zeros 5) 2 0 "" = fromCharCode (zeros 5) /\
  binaryString_loop 2 (zeros 5) 2 0 "" = fromCharCode (zeros 4).
Proof. split; reflexivity. Qed.

(** * Further properties of the crop rectangle *)

(** One axis for any selection: the offset is clamped into the raster
    and the extent stops at the raster's edge; an extent that was not
    negative stays so, and a negative one is not made positive. *)
Lemma crop_axis_any (pos len logical : Q) (pixels : Z) :
  (0 < logical)%Q -> 0 < pixels ->
  let scale := div (ofZ pixels) (Fin logical) in
  let final :=
    Math_max (Fin 0)
      (Math_min (Math_round (mul (Fin pos) scale))
                (sub (Fin pixels) (Fin 1))) in
  exists p l : Z,
    final = Fin p /\
    Math_min (Math_round (mul (Fin len) scale)) (sub (Fin pixels) final)
    = Fin l /\
    0 <= p < pixels /\ p + l <= pixels /\
    ((0 <= len)%Q -> 0 <= l) /\ ((len < 0)%Q -> l <= 0).
Proof.
  intros Hlog Hpix scale final. subst final scale.
  rewrite scale_finite by exact Hlog.
  unfold mul, Math_round, sub, Math_min, Math_max.
  assert (0 < inject_Z pixels / logical)%Q as Hscale.
  { apply Qlt_shift_div_l; [exact Hlog|]. rewrite Qmult_0_l.
    change 0%Q with (inject_Z 0). now rewrite <- Zlt_Qlt. }
  eexists _, _. split; [reflexivity|]. split; [reflexivity|].
  split; [lia|]. split; [lia|]. split.
  - intros Hlen.
    pose proof (Math_round_nonneg _ (scaled_nonneg len logical pixels
                                       Hlen Hlog Hpix)). lia.
  - intros Hlen.
    set (scale := (inject_Z pixels / logical)%Q) in *.
    assert (len * scale < 0)%Q as Hneg by nra.
    pose proof (Qfloor_le (len * scale + (1 # 2))) as Hfloor.
    assert (inject_Z (Qfloor (len * scale + (1 # 2))) < inject_Z 1)%Q as Hlt
      by (change (inject_Z 1) with 1%Q; lra).
    rewrite <- Zlt_Qlt in Hlt. lia.
Qed.

(** X17: for every selection whose coordinates are at most 2^53 in
    absolute value, also one that lies outside the viewport or has a
    negative size, on a viewport of at least 1 x 1 and at most 2^32 in
    each direction and a raster of positive dimensions up to 2^32 (so
    that no number of the computation leaves the range of a float): the
    crop's corner is a pixel of the raster and the crop does not extend
    past the raster's right and bottom edges.  Its width and height are
    cut from above only: a negative selection width or height gives a
    width or height that is not positive. *)
Theorem crop_corner_always_in_raster
    (selection : Bounds) (logicalWidth logicalHeight : Q)
    (pixelWidth pixelHeight : Z) :
  (Qabs (b_x selection) <= inject_Z (2 ^ 53))%Q ->
  (Qabs (b_y selection) <= inject_Z (2 ^ 53))%Q ->
  (Qabs (b_width selection) <= inject_Z (2 ^ 53))%Q ->
  (Qabs (b_height selection) <= inject_Z (2 ^ 53))%Q ->
  (1 <= logicalWidth <= inject_Z (2 ^ 32))%Q ->
  (1 <= logicalHeight <= inject_Z (2 ^ 32))%Q ->
  0 < pixelWidth <= 2 ^ 32 -> 0 < pixelHeight <= 2 ^ 32 ->
  exists x y w h : Z,
    crop_region selection pixelWidth pixelHeight
      (Fin logicalWidth) (Fin logicalHeight)
    = mkRegion (Fin x) (Fin y) (Fin w) (Fin h) /\
    0 <= x < pixelWidth /\ 0 <= y < pixelHeight /\
    x + w <= pixelWidth /\ y + h <= pixelHeight /\
    ((b_width selection < 0)%Q -> w <= 0) /\
    ((b_height selection < 0)%Q -> h <= 0).
Proof.
  intros _ _ _ _ [HLW _] [HLH _] [HW _] [HH _].
  assert (0 < logicalWidth)%Q as HLW' by lra.
  assert (0 < logicalHeight)%Q as HLH' by lra.
  destruct (crop_axis_any (b_x selection) (b_width selection) logicalWidth
              pixelWidth HLW' HW) as (x & w & Ex & Ew & Hx & Hxw & _ & Hw).
  destruct (crop_axis_any (b_y selection) (b_height selection) logicalHeight
              pixelHeight HLH' HH) as (y & h & Ey & Eh & Hy & Hyh & _ & Hh).
  exists x, y, w, h. unfold crop_region. cbv zeta in Ex, Ew, Ey, Eh.
  rewrite Ex, Ey in *. rewrite Ew, Eh.
  repeat split; try lia; assumption.
Qed.

Lemma crop_corner_always_in_raster_witness :
  crop_region (mkBounds 2000 (-50) (-320) 180) 1280 720
    (Fin 1280%Q) (Fin 720%Q)
  = mkRegion (Fin 1279) (Fin 0) (Fin (-320)) (Fin 180).
Proof.
  destruct (crop_corner_always_in_raster (mkBounds 2000 (-50) (-320) 180)
              1280 720 1280 720
              ltac:(vm_compute; discriminate) ltac:(vm_compute; discriminate)
              ltac:(vm_compute; discriminate) ltac:(vm_compute; discriminate)
              ltac:(split; vm_compute; discriminate)
              ltac:(split; vm_compute; discriminate)
              ltac:(lia) ltac:(lia))
    as (x & y & w & h & Hregion & _).
  vm_compute. reflexivity.
Defined.

(** Rounding an integer gives the integer. *)
Lemma Qfloor_half (n : Z) (q : Q) :
  (q == inject_Z n)%Q -> Qfloor (q + (1 # 2)) = n.
Proof.
  intros Hq.
  pose proof (Qfloor_le (q + (1 # 2))) as Hle.
  pose proof (Qlt_floor (q + (1 # 2))) as Hlt.
  rewrite inject_Z_plus in Hlt. change (inject_Z 1) with 1%Q in Hlt.
  assert (inject_Z (Qfloor (q + (1 # 2))) < inject_Z (n + 1))%Q as H1
    by (rewrite inject_Z_plus; change (inject_Z 1) with 1%Q; lra).
  assert (inject_Z (n - 1) < inject_Z (Qfloor (q + (1 # 2))))%Q as H2.
  { unfold Z.sub. rewrite inject_Z_plus, inject_Z_opp.
    change (inject_Z 1) with 1%Q. lra. }
  rewrite <- Zlt_Qlt in H1, H2. lia.
Qed.

(** One axis when the raster is [k] times the viewport and the
    selection has integer coordinates. *)
Lemma crop_axis_integer (k logical pixels pos len : Z) :
  0 < k -> 0 < logical -> pixels = k * logical -> 0 <= pos < logical ->
  let scale := div (ofZ pixels) (Fin (inject_Z logical)) in
  let final :=
    Math_max (Fin 0)
      (Math_min (Math_round (mul (Fin (inject_Z pos)) scale))
                (sub (Fin pixels) (Fin 1))) in
  final = Fin (k * pos) /\
  Math_min (Math_round (mul (Fin (inject_Z len)) scale))
           (sub (Fin pixels) final)
  = Fin (Z.min (k * len) (pixels - k * pos)).
Proof.
  intros Hk Hl Hpix Hpos scale final. subst final scale.
  assert (0 < inject_Z logical)%Q as HL
    by (change 0%Q with (inject_Z 0); now rewrite <- Zlt_Qlt).
  rewrite scale_finite by exact HL.
  unfold mul, Math_round, sub, Math_min, Math_max.
  assert (forall v : Z,
             (inject_Z v * (inject_Z pixels / inject_Z logical)
              == inject_Z (k * v))%Q) as Hscaled.
  { intros v. subst pixels. rewrite !inject_Z_mult. field. lra. }
  rewrite (Qfloor_half (k * pos)) by apply Hscaled.
  rewrite (Qfloor_half (k * len)) by apply Hscaled.
  replace (Z.max 0 (Z.min (k * pos) (pixels - 1))) with (k * pos) by nia.
  split; reflexivity.
Qed.



(** X19: the viewport width is not checked for zero.  With a viewport
    of width 0 the horizontal scale is infinite: a selection at x = 0
    gives a crop whose x and width are NaN, a selection at x > 0 gives
    the last column of the raster and a selection at x < 0 the first. *)
Theorem crop_region_zero_width_viewport
    (selection : Bounds) (pixelWidth pixelHeight : Z)
    (viewportHeight : ext Q) :
  0 < pixelWidth ->
  let r := crop_region selection pixelWidth pixelHeight (Fin 0%Q)
             viewportHeight in
  match (b_x selection ?= 0)%Q with
  | Eq => finalX r = NaN /\ finalWidth r = NaN
  | Gt => finalX r = Fin (pixelWidth - 1)
  | Lt => finalX r = Fin 0
  end.
Proof.
  intros HW r. subst r. unfold crop_region, div, ofZ. cbn [Qeq_bool].
  change (Qeq_bool 0 0) with true. cbn [sgnQ finalX finalWidth].
  assert ((inject_Z pixelWidth ?= 0)%Q = Gt) as ->.
  { apply Qgt_alt. change 0%Q with (inject_Z 0). now rewrite <- Zlt_Qlt. }
  cbn [inf_of mul sgnQ]. 
  destruct (b_x selection ?= 0)%Q; cbn.
  - split; [reflexivity|]. now destruct (Math_round _).
  - reflexivity.
  - f_equal. lia.
Qed.

Lemma crop_region_zero_width_viewport_witness :
  finalX (crop_region (mkBounds 0 0 320 180) 1280 720 (Fin 0%Q) (Fin 720%Q))
  = NaN.
Proof.
  pose proof (crop_region_zero_width_viewport (mkBounds 0 0 320 180) 1280 720
                (Fin 720%Q) ltac:(reflexivity)) as H.
  cbn zeta in H. change ((0 ?= 0)%Q) with Eq in H. exact (proj1 H).
Defined.

(** X20: a failing viewport probe does not fail processImage.  When the
    injected script throws, the screenshot's own size is taken as the
    viewport, the scale is 1, and for a selection with integer
    coordinates whose corner is a pixel of the screenshot the canvas is
    asked for exactly that rectangle, cut at the right and bottom
    edges. *)
Theorem processImage_without_viewport_probe
    (br : Browser) (icfg : ImageConfig) (imageData : string)
    (x y w h targetWidth targetHeight : Z) (tab : Tab)
    (screenshotWidth screenshotHeight : Z) (e : thrown) :
  createImageBitmap br imageData = Ok (screenshotWidth, screenshotHeight) ->
  executeScript br (tab_id tab) = Throw e ->
  0 <= x < screenshotWidth -> 0 <= y < screenshotHeight ->
  processImage br icfg imageData
    (mkBounds (inject_Z x) (inject_Z y) (inject_Z w) (inject_Z h))
    targetWidth targetHeight (Some tab)
  = draw_and_convertToBlob br imageData
      (mkRegion (Fin x) (Fin y)
         (Fin (Z.min w (screenshotWidth - x)))
         (Fin (Z.min h (screenshotHeight - y))))
      targetWidth targetHeight (format icfg) (quality icfg).
Proof.
  intros Hbitmap Hprobe Hx Hy.
  unfold processImage. rewrite Hbitmap, Hprobe.
  unfold processImage_region, viewport_of, ofZ.
  destruct (crop_axis_integer 1 screenshotWidth screenshotWidth x w)
    as [Ex Ew]; try lia.
  destruct (crop_axis_integer 1 screenshotHeight screenshotHeight y h)
    as [Ey Eh]; try lia.
  unfold crop_region. cbn [b_x b_y b_width b_height].
  cbv zeta in Ex, Ew, Ey, Eh. unfold ofZ in *.
  rewrite Ex, Ey in *. rewrite Ew, Eh.
  rewrite !Z.mul_1_l. reflexivity.
Qed.

Lemma processImage_without_viewport_probe_witness :
  processImage unprobed_browser imageConfig
    "data:image/png;base64,iVBORw0KGgo="
    (mkBounds 1200 100 320 180) 560 315 (Some {| tab_id := 7 |})
  = Ok (zeros 80).
Proof.
  etransitivity.
  - exact (processImage_without_viewport_probe unprobed_browser imageConfig
             "data:image/png;base64,iVBORw0KGgo=" 1200 100 320 180 560 315
             {| tab_id := 7 |} 1280 720
             (JsError "Cannot access contents of the page")
             eq_refl eq_refl ltac:(lia) ltac:(lia)).
  - reflexivity.
Defined.

(** * Properties of the selection overlay *)




(** X22: the handle names are matched by lower-case substrings.  For
    the four corner handles neither "right" nor "left" is found in the
    name, so the new size is computed from the parsed height alone,
    whatever the parsed width, and the box is not anchored at its right
    edge: its x is the widget's position clamped into the window. *)
Theorem corner_handles_resize_by_height :
  Forall
    (fun direction =>
       forall (innerWidth innerHeight : Q) (current : Bounds)
              (newWidth newWidth' newHeight : Z) (position : Q * Q),
         let b := handleResize innerWidth innerHeight current direction
                    newWidth newHeight position in
         b = handleResize innerWidth innerHeight current direction
               newWidth' newHeight position /\
         b_width b
         = Qmax minWidth (Qmin (inject_Z newHeight * ASPECT_RATIO)
                               (innerWidth * (8 # 10))) /\
         b_x b = Qmax 0 (Qmin (fst position) (innerWidth - b_width b)))
    ["topRight"; "bottomRight"; "bottomLeft"; "topLeft"].
Proof. repeat constructor. Qed.

(** The side handles are matched: "left" resizes by width and keeps the
    right edge where it was, as long as the window allows. *)
Example left_handle_keeps_right_edge :
  let b := handleResize 1280 720 (mkBounds 325 78 768 432) "left" 640 432
             (400, 78)%Q in
  (b_x b == 453 /\ b_width b == 640 /\ b_height b == 360)%Q.
Proof. repeat split. Qed.

Example bottomLeft_handle_follows_height :
  let b := handleResize 1280 720 (mkBounds 325 78 768 432) "bottomLeft" 640 432
             (400, 78)%Q in
  (b_x b == 400 /\ b_width b == 768 /\ b_height b == 432)%Q.
Proof. repeat split. Qed.




